(** * nheko: the room list (src/RoomList.cpp)

    A shallow embedding of [RoomList], the widget that owns the roster of
    chat rooms, keeps it ordered by last message and filters it.

    The C++ class holds
    - [rooms_], a [std::map<QString, QSharedPointer<RoomInfoListItem>>],
      iterated in ascending key order;
    - [contentsLayout_], a [QVBoxLayout] whose items are (mostly) the very
      same [RoomInfoListItem] widgets, in display order;
    - [selectedRoom_] and [isSortPending_].

    The widgets are shared between the map and the layout, so they live in
    a store indexed by address; the map and the layout hold addresses.  A
    [QSharedPointer] keeps its widget alive and Qt takes a deleted widget
    out of its layout, so an address held by either is never dangling: the
    store is a total function and a destroyed widget just stops being
    referenced.

    Signals and log lines are appended to a trace, oldest first.  The avatar
    cache is a function from urls to image data that the operations reading
    it are given; a thumbnail request that is started is recorded in the
    trace, its answer is a later event.  Painting and dialogs do not touch
    the roster and are left out. *)

From stdpp Require Import base gmap list strings.
From Stdlib Require Import ZArith Lia Sorting.Sorted Sorting.Permutation.
From Stdlib Require OrderedTypeEx.

Local Open Scope Z_scope.

(** ** Values *)

Abbreviation QString := string (only parsing).

Definition isEmpty (s : QString) : bool :=
  match s with EmptyString => true | _ => false end.

(** [int] is 32 bits wide. *)
Definition INT_MIN : Z := - 2 ^ 31.
Definition INT_MAX : Z := 2 ^ 31 - 1.
Definition in_int (z : Z) : bool := (INT_MIN <=? z) && (z <=? INT_MAX).

(** Image data, as [QByteArray], [QPixmap] and [QImage] carry it; empty when
    there is none. *)
Abbreviation QByteArray := string (only parsing).

(** The conversion of a [qint64] to [uint64_t]. *)
Definition to_uint64 (z : Z) : Z := z mod 2 ^ 64.

(** Modelled from the spec: [DescInfo] is declared in Cache.h, which is not
    part of the sources at hand.  The spec's Room has a
    [lastActivityTimestamp] in milliseconds since the epoch, absent when no
    message was received; the code reads it as [datetime.toMSecsSinceEpoch()]
    (a [qint64]) and tells a missing message by an empty [userid]. *)
Record DescInfo := mkDescInfo {
  username : QString;
  userid : QString;
  body : QString;
  timestamp : QString;
  datetime : Z
}.

(** Modelled from the spec: [RoomInfo] is declared in Cache.h, which is not
    part of the sources at hand.  Only the fields RoomList.cpp reads. *)
Record RoomInfo := mkRoomInfo {
  name : QString;
  avatar_url : QString;
  is_invite : bool;
  msgInfo : DescInfo
}.

Inductive RoomType := Joined | Invited.

(** Modelled from the spec: the class [RoomInfoListItem] is declared in
    RoomInfoListItem.h, which is not part of the sources at hand.  It is the
    spec's Room: an id, the invite flag, a display name, the last message,
    the unread count (an [int]), the pressed mark of the selected room, the
    visibility that [show()] and [hide()] set and the avatar image;
    [isVisible()] answers that visibility, the list itself being on screen.
    The methods RoomList.cpp calls are the accessors and setters below, each
    on its one field. *)
Record RoomInfoListItem := mkItem {
  roomId_ : QString;
  roomName_ : QString;
  roomType_ : RoomType;
  lastMsgInfo_ : DescInfo;
  unreadMsgCount_ : Z;
  isPressed_ : bool;
  visible_ : bool;
  avatar_ : QByteArray
}.

Definition roomId (w : RoomInfoListItem) : QString := roomId_ w.
Definition isInvite (w : RoomInfoListItem) : bool :=
  match roomType_ w with Invited => true | Joined => false end.
Definition lastMessageInfo (w : RoomInfoListItem) : DescInfo := lastMsgInfo_ w.
Definition unreadMessageCount (w : RoomInfoListItem) : Z := unreadMsgCount_ w.
Definition isVisible (w : RoomInfoListItem) : bool := visible_ w.

Definition setPressedState (b : bool) (w : RoomInfoListItem) : RoomInfoListItem :=
  mkItem (roomId_ w) (roomName_ w) (roomType_ w) (lastMsgInfo_ w)
         (unreadMsgCount_ w) b (visible_ w) (avatar_ w).
Definition item_updateUnreadMessageCount (count : Z) (w : RoomInfoListItem)
  : RoomInfoListItem :=
  mkItem (roomId_ w) (roomName_ w) (roomType_ w) (lastMsgInfo_ w)
         count (isPressed_ w) (visible_ w) (avatar_ w).
Definition setDescriptionMessage (info : DescInfo) (w : RoomInfoListItem)
  : RoomInfoListItem :=
  mkItem (roomId_ w) (roomName_ w) (roomType_ w) info
         (unreadMsgCount_ w) (isPressed_ w) (visible_ w) (avatar_ w).
Definition setVisible (b : bool) (w : RoomInfoListItem) : RoomInfoListItem :=
  mkItem (roomId_ w) (roomName_ w) (roomType_ w) (lastMsgInfo_ w)
         (unreadMsgCount_ w) (isPressed_ w) b (avatar_ w).
Definition show := setVisible true.
Definition hide := setVisible false.
Definition setRoomName (n : QString) (w : RoomInfoListItem) : RoomInfoListItem :=
  mkItem (roomId_ w) n (roomType_ w) (lastMsgInfo_ w)
         (unreadMsgCount_ w) (isPressed_ w) (visible_ w) (avatar_ w).
Definition setAvatar (img : QByteArray) (w : RoomInfoListItem) : RoomInfoListItem :=
  mkItem (roomId_ w) (roomName_ w) (roomType_ w) (lastMsgInfo_ w)
         (unreadMsgCount_ w) (isPressed_ w) (visible_ w) img.

(** Modelled from the spec: the constructor
    [RoomInfoListItem(room_id, info, parent)] is not part of the sources at
    hand either; a new room has its id, name and invite flag from [info], no
    message yet, nothing unread, no avatar, and is neither pressed nor
    hidden. *)
Definition noMessage : DescInfo :=
  mkDescInfo EmptyString EmptyString EmptyString EmptyString 0.
Definition newItem (room_id : QString) (info : RoomInfo) : RoomInfoListItem :=
  mkItem room_id (name info) (if is_invite info then Invited else Joined)
         noMessage 0 false true EmptyString.

(** ** Addresses, the widget store, the map and the layout *)

Definition ptr := positive.

Definition Store := ptr -> RoomInfoListItem.

Definition store_update (p : ptr) (f : RoomInfoListItem -> RoomInfoListItem)
    (h : Store) : Store :=
  fun q => if Pos.eqb q p then f (h q) else h q.

(** A [QSharedPointer<RoomInfoListItem>]: null or an address. *)
Definition QSharedPointer := option ptr.
Definition isNull (p : QSharedPointer) : bool :=
  match p with None => true | Some _ => false end.

(** [rooms_], as the list of its entries in iteration order. *)
Definition RoomMap := list (QString * QSharedPointer).

Fixpoint map_find (k : QString) (m : RoomMap) : option QSharedPointer :=
  match m with
  | [] => None
  | (k', v) :: m' => if String.eqb k k' then Some v else map_find k m'
  end.

Fixpoint map_erase (k : QString) (m : RoomMap) : RoomMap :=
  match m with
  | [] => []
  | (k', v) :: m' => if String.eqb k k' then m' else (k', v) :: map_erase k m'
  end.

(** [emplace] keeps the keys ascending and leaves the map alone when the key
    is taken.  [QString]'s [operator<] compares code units, [String.ltb]
    bytes: the same order on ASCII room ids. *)
Fixpoint map_emplace (k : QString) (v : QSharedPointer) (m : RoomMap) : RoomMap :=
  match m with
  | [] => [(k, v)]
  | (k', v') :: m' =>
      if String.eqb k k' then m
      else if String.ltb k k' then (k, v) :: m
      else (k', v') :: map_emplace k v m'
  end.

(** Does some entry of the map hold the address [p]? *)
Definition owned (p : ptr) (m : RoomMap) : bool :=
  existsb (fun e => match snd e with Some q => Pos.eqb q p | None => false end) m.

(** An item of [contentsLayout_]: a room widget, or anything else (a
    spacer, another widget), for which the [qobject_cast] gives null. *)
Inductive QLayoutItem := RoomWidget (w : ptr) | OtherItem.

Definition isWidget (w : ptr) (i : QLayoutItem) : bool :=
  match i with RoomWidget q => Pos.eqb q w | OtherItem => false end.

Definition Layout := list QLayoutItem.

(** [QLayout::count()], [QLayout::indexOf(widget)] (the first position, or
    -1) and [QLayout::removeWidget(widget)]. *)
Definition count (l : Layout) : Z := Z.of_nat (length l).

Fixpoint indexOf (w : ptr) (l : Layout) : Z :=
  match l with
  | [] => -1
  | i :: l' =>
      if isWidget w i then 0
      else let r := indexOf w l' in if r <? 0 then -1 else r + 1
  end.

Fixpoint removeWidget (w : ptr) (l : Layout) : Layout :=
  match l with
  | [] => []
  | i :: l' => if isWidget w i then l' else i :: removeWidget w l'
  end.

(** [QBoxLayout::insertWidget(index, widget)]: a negative index, or one
    beyond the count, appends. *)
Definition insertWidget (index : Z) (w : ptr) (l : Layout) : Layout :=
  if (index <? 0) || (count l <? index) then l ++ [RoomWidget w]
  else take (Z.to_nat index) l ++ RoomWidget w :: drop (Z.to_nat index) l.

(** The widgets whose last [QSharedPointer] went away between the maps [old]
    and [new] are deleted, and a deleted widget leaves the layout. *)
Definition destroyed (old new : RoomMap) (p : ptr) : bool :=
  owned p old && negb (owned p new).

Definition dropDestroyed (old new : RoomMap) (l : Layout) : Layout :=
  List.filter (fun i => match i with
                        | RoomWidget p => negb (destroyed old new p)
                        | OtherItem => true
                        end) l.

(** ** The state of a [RoomList] *)

Inductive Event :=
| SigRoomChanged (room_id : QString)
| SigTotalUnreadMessageCountUpdated (total : Z)
| LogWarn (message : string) (args : list QString)
| LogInfo (message : string)
| SigRoomAvatarChanged (roomid : QString) (img : QByteArray)
| RequestThumbnail (room_id : QString) (mxc_url : QString).

(** Besides the members of the class: the store of the widgets, the number
    of single-shot timers started and not yet fired, and what was emitted and
    logged so far. *)
Record RoomList := mkRoomList {
  rooms_ : RoomMap;
  contentsLayout_ : Layout;
  selectedRoom_ : QString;
  isSortPending_ : bool;
  widgets : Store;
  timers : nat;
  trace : list Event
}.

(** Assigning [rooms_] deletes the widgets that lose their last owner. *)

Definition set_rooms (m : RoomMap) (st : RoomList) : RoomList :=
  mkRoomList m (dropDestroyed (rooms_ st) m (contentsLayout_ st))
             (selectedRoom_ st) (isSortPending_ st)
             (widgets st) (timers st) (trace st).
Definition set_layout (l : Layout) (st : RoomList) : RoomList :=
  mkRoomList (rooms_ st) l (selectedRoom_ st) (isSortPending_ st)
             (widgets st) (timers st) (trace st).
Definition set_selectedRoom (s : QString) (st : RoomList) : RoomList :=
  mkRoomList (rooms_ st) (contentsLayout_ st) s (isSortPending_ st)
             (widgets st) (timers st) (trace st).
Definition set_isSortPending (b : bool) (st : RoomList) : RoomList :=
  mkRoomList (rooms_ st) (contentsLayout_ st) (selectedRoom_ st) b
             (widgets st) (timers st) (trace st).
Definition on_widget (p : ptr) (f : RoomInfoListItem -> RoomInfoListItem)
    (st : RoomList) : RoomList :=
  mkRoomList (rooms_ st) (contentsLayout_ st) (selectedRoom_ st)
             (isSortPending_ st) (store_update p f (widgets st))
             (timers st) (trace st).
Definition set_timers (n : nat) (st : RoomList) : RoomList :=
  mkRoomList (rooms_ st) (contentsLayout_ st) (selectedRoom_ st)
             (isSortPending_ st) (widgets st) n (trace st).
Definition emit (e : Event) (st : RoomList) : RoomList :=
  mkRoomList (rooms_ st) (contentsLayout_ st) (selectedRoom_ st)
             (isSortPending_ st) (widgets st) (timers st) (trace st ++ [e]).

(** ** Outcomes: a value, or undefined behaviour *)

Inductive Fault :=
| NullDereference
| EndIteratorDereference
| UseAfterFree
| SignedOverflow.

Inductive result (A : Type) :=
| Ok (a : A)
| Undefined (f : Fault).
Arguments Ok {A} a.
Arguments Undefined {A} f.

Definition bind {A B} (r : result A) (k : A -> result B) : result B :=
  match r with
  | Ok a => k a
  | Undefined f => Undefined f
  end.

(** [+=] on an [int]: an overflow is undefined. *)
Definition int_add (a b : Z) : result Z :=
  if in_int (a + b) then Ok (a + b) else Undefined SignedOverflow.

(** ** The operations of RoomList.cpp *)

(** Modelled from the spec: [roomExists] is defined in RoomList.h, which is
    not part of the sources at hand; an id exists when it is a key of
    [rooms_]. *)
Definition roomExists (room_id : QString) (st : RoomList) : bool :=
  match map_find room_id (rooms_ st) with Some _ => true | None => false end.

(** [firstRoom]: the loop reads [firstRoom->second] before it compares the
    iterator with [rooms_.end()]. *)
Fixpoint firstRoom_scan (it : RoomMap) : result (QString * QSharedPointer) :=
  match it with
  | [] => Undefined EndIteratorDereference
  | (k, p) :: rest => if isNull p then firstRoom_scan rest else Ok (k, p)
  end.

Definition firstRoom (st : RoomList) : result (QString * QSharedPointer) :=
  firstRoom_scan (rooms_ st).

Definition removeRoom (room_id : QString) (reset : bool) (st : RoomList)
  : result RoomList :=
  let st1 := set_rooms (map_erase room_id (rooms_ st)) st in
  if bool_decide (rooms_ st1 = []) || negb reset then Ok st1
  else
    bind (firstRoom st1) (fun room =>
      match snd room with
      | None => Ok st1
      | Some p =>
          Ok (emit (SigRoomChanged (fst room))
                   (on_widget p (setPressedState true) st1))
      end).

Fixpoint sumUnread (h : Store) (rooms : RoomMap) (total_unread_msgs : Z)
  : result Z :=
  match rooms with
  | [] => Ok total_unread_msgs
  | room :: rest =>
      match snd room with
      | Some p =>
          bind (int_add total_unread_msgs (unreadMessageCount (h p)))
               (sumUnread h rest)
      | None => sumUnread h rest total_unread_msgs
      end
  end.

Definition calculateUnreadMessageCount (st : RoomList) : result RoomList :=
  bind (sumUnread (widgets st) (rooms_ st) 0) (fun total_unread_msgs =>
    Ok (emit (SigTotalUnreadMessageCountUpdated total_unread_msgs) st)).

Definition updateUnreadMessageCount (roomid : QString) (count : Z)
    (st : RoomList) : result RoomList :=
  if negb (roomExists roomid st) then
    Ok (emit (LogWarn "updateUnreadMessageCount: unknown room_id {}" [roomid]) st)
  else
    match map_find roomid (rooms_ st) with
    | Some (Some p) =>
        calculateUnreadMessageCount
          (on_widget p (item_updateUnreadMessageCount count) st)
    | _ => Undefined NullDereference
    end.

(** Modelled from the spec: [utils::erase_if] is defined in Utils.h, which is
    not part of the sources at hand; it erases the entries the predicate
    holds for and keeps the others in place. *)
Definition erase_if (pred : QString * QSharedPointer -> bool) (m : RoomMap)
  : RoomMap :=
  List.filter (fun room => negb (pred room)) m.

(** The predicate [cleanupInvites] hands to [erase_if]. *)
Definition staleInvite (invites : gmap QString bool) (h : Store)
    (room : QString * QSharedPointer) : bool :=
  match snd room with
  | None => false
  | Some p =>
      isInvite (h p) &&
      match invites !! fst room with None => true | Some _ => false end
  end.

Definition cleanupInvites (invites : gmap QString bool) (st : RoomList)
  : RoomList :=
  if bool_decide (size invites = 0%nat) then st
  else set_rooms (erase_if (staleInvite invites (widgets st)) (rooms_ st)) st.

Definition highlightSelectedRoom (room_id : QString) (st : RoomList)
  : RoomList :=
  let st1 := emit (SigRoomChanged room_id) st in
  if negb (roomExists room_id st1) then
    emit (LogWarn "roomlist: clicked unknown room_id" []) st1
  else
    let st2 :=
      fold_left (fun s room =>
                   match snd room with
                   | None => s
                   | Some p =>
                       if negb (String.eqb (fst room) room_id)
                       then on_widget p (setPressedState false) s
                       else on_widget p (setPressedState true) s
                   end) (rooms_ st1) st1 in
    set_selectedRoom room_id st2.

(** The key under which [sortRoomsByLastMessage] files a room. *)
Definition sortKey (w : RoomInfoListItem) : Z :=
  if isEmpty (userid (lastMessageInfo w)) then 0
  else to_uint64 (datetime (lastMessageInfo w)).

(** [std::multimap<uint64_t, RoomInfoListItem *, std::greater<uint64_t>>]:
    [emplace] puts the entry after those with a key at least as large. *)
Definition Times := list (Z * ptr).

Fixpoint multimap_emplace (k : Z) (v : ptr) (m : Times) : Times :=
  match m with
  | [] => [(k, v)]
  | (k', v') :: m' =>
      if k' <? k then (k, v) :: m else (k', v') :: multimap_emplace k v m'
  end.

Definition collectTimes (h : Store) (l : Layout) : Times :=
  fold_left (fun times i =>
               match i with
               | OtherItem => times
               | RoomWidget room => multimap_emplace (sortKey (h room)) room times
               end) l [].

Fixpoint reposition (times : Times) (newIndex : Z) (l : Layout) : Layout :=
  match times with
  | [] => l
  | (_, roomWidget) :: rest =>
      let currentIndex := indexOf roomWidget l in
      reposition rest (newIndex + 1)
        (if currentIndex =? newIndex then l
         else insertWidget newIndex roomWidget (removeWidget roomWidget l))
  end.

Definition sortRoomsByLastMessage (st : RoomList) : RoomList :=
  let st1 := set_isSortPending false st in
  let times := collectTimes (widgets st1) (contentsLayout_ st1) in
  set_layout (reposition times 0 (contentsLayout_ st1)) st1.

(** [underMouse] is what [QWidget::underMouse()] answers at the call. *)
Definition updateRoomDescription (underMouse : bool) (roomid : QString)
    (info : DescInfo) (st : RoomList) : result RoomList :=
  if negb (roomExists roomid st) then
    Ok (emit (LogWarn "description update on non-existent room_id: {}, {}"
                      [roomid; body info]) st)
  else
    match map_find roomid (rooms_ st) with
    | Some (Some p) =>
        let st1 := on_widget p (setDescriptionMessage info) st in
        if underMouse then Ok (set_isSortPending true st1)
        else Ok (sortRoomsByLastMessage (set_isSortPending false st1))
    | _ => Undefined NullDereference
    end.

(** [QTimer::singleShot(700, this, &RoomList::sortRoomsByLastMessage)] adds
    one outstanding timer; [timeout] is such a timer firing. *)
Definition leaveEvent (st : RoomList) : RoomList :=
  if isSortPending_ st then set_timers (S (timers st)) st else st.

Definition timeout (st : RoomList) : RoomList :=
  sortRoomsByLastMessage (set_timers (pred (timers st)) st).

Definition removeFilter (st : RoomList) : RoomList :=
  fold_left (fun s i =>
               match i with
               | OtherItem => s
               | RoomWidget widget => on_widget widget show s
               end) (contentsLayout_ st) st.

Definition contains (filter : gmap QString bool) (k : QString) : bool :=
  match filter !! k with Some _ => true | None => false end.

Fixpoint firstVisible (h : Store) (l : Layout) : option ptr :=
  match l with
  | [] => None
  | OtherItem :: l' => firstVisible h l'
  | RoomWidget item :: l' =>
      if isVisible (h item) then Some item else firstVisible h l'
  end.

Definition selectFirstVisibleRoom (st : RoomList) : RoomList :=
  match firstVisible (widgets st) (contentsLayout_ st) with
  | Some item => highlightSelectedRoom (roomId (widgets st item)) st
  | None => st
  end.

Definition applyFilter (filter : gmap QString bool) (st : RoomList)
  : RoomList :=
  let st1 :=
    fold_left (fun s i =>
                 match i with
                 | OtherItem => s
                 | RoomWidget listitem =>
                     if contains filter (roomId (widgets s listitem))
                     then on_widget listitem show s
                     else on_widget listitem hide s
                 end) (contentsLayout_ st) st in
  if negb (isEmpty (selectedRoom_ st1)) && contains filter (selectedRoom_ st1)
  then st1
  else selectFirstVisibleRoom st1.

(** [new RoomInfoListItem(...)]: an address no live widget has. *)
Definition layout_ptrs (l : Layout) : list ptr :=
  flat_map (fun i => match i with RoomWidget p => [p] | OtherItem => [] end) l.
Definition map_ptrs (m : RoomMap) : list ptr :=
  flat_map (fun e => match snd e with Some p => [p] | None => [] end) m.
Definition allocate (st : RoomList) : ptr :=
  Pos.succ (fold_right Pos.max 1%positive
              (map_ptrs (rooms_ st) ++ layout_ptrs (contentsLayout_ st))).

Definition set_widget (p : ptr) (w : RoomInfoListItem) (st : RoomList)
  : RoomList := on_widget p (fun _ => w) st.

(** [updateRoomAvatar], the slot that sets the avatar of a room. *)
Definition updateRoomAvatar (roomid : QString) (img : QByteArray)
    (st : RoomList) : result RoomList :=
  if negb (roomExists roomid st) then
    Ok (emit (LogWarn "avatar update on non-existent room_id: {}" [roomid]) st)
  else
    match map_find roomid (rooms_ st) with
    | Some (Some p) =>
        Ok (emit (SigRoomAvatarChanged roomid img)
                 (on_widget p (setAvatar img) st))
    | _ => Undefined NullDereference
    end.

(** [updateAvatar].  [cache url] is what [cache::client()->image(url)]
    answers, empty also when there is no cache client; an image stands for
    the data it is loaded from.  With nothing cached the thumbnail is
    requested; the answer comes later, as a call of [updateRoomAvatar]. *)
Definition updateAvatar (cache : QString -> QByteArray) (room_id url : QString)
    (st : RoomList) : result RoomList :=
  if isEmpty url then Ok st
  else
    let savedImgData := cache url in
    if isEmpty savedImgData then Ok (emit (RequestThumbnail room_id url) st)
    else updateRoomAvatar room_id savedImgData st.

(** What [addRoom] and [addInvitedRoom] do with the new widget: [emplace],
    their call of [updateAvatar], [insertWidget].  When the key is taken
    [emplace] stores nothing, the temporary [QSharedPointer] deletes the new
    widget, and the [insertWidget] that follows uses the deleted widget. *)
Definition insertNewItem (room_id : QString) (room_item : ptr)
    (avatar : RoomList -> result RoomList) (st : RoomList) : result RoomList :=
  let taken := roomExists room_id st in
  let st1 := set_rooms (map_emplace room_id (Some room_item) (rooms_ st)) st in
  bind (avatar st1) (fun st2 =>
    if taken then Undefined UseAfterFree
    else
      let pos := count (contentsLayout_ st2) - 1 in
      Ok (set_layout (insertWidget pos room_item (contentsLayout_ st2)) st2)).

Definition addRoom (cache : QString -> QByteArray) (room_id : QString)
    (info : RoomInfo) (st : RoomList) : result RoomList :=
  let room_item := allocate st in
  let st1 := set_widget room_item (newItem room_id info) st in
  let st2 := on_widget room_item (setRoomName (name info)) st1 in
  insertNewItem room_id room_item
    (fun s => if negb (isEmpty (avatar_url info))
              then updateAvatar cache room_id (avatar_url info) s
              else Ok s) st2.

Definition addInvitedRoom (cache : QString -> QByteArray) (room_id : QString)
    (info : RoomInfo) (st : RoomList) : result RoomList :=
  let room_item := allocate st in
  let st1 := set_widget room_item (newItem room_id info) st in
  insertNewItem room_id room_item
    (updateAvatar cache room_id (avatar_url info)) st1.

Fixpoint for_each {A} (f : A -> RoomList -> result RoomList) (l : list A)
    (st : RoomList) : result RoomList :=
  match l with
  | [] => Ok st
  | x :: l' => bind (f x st) (for_each f l')
  end.

(** [initialize]; [info] is the [QMap] as the list of its entries in key
    order. *)
Definition initialize (cache : QString -> QByteArray) (underMouse : bool)
    (info : list (QString * RoomInfo)) (st : RoomList) : result RoomList :=
  let st0 := emit (LogInfo "initialize room list") st in
  let st1 := set_rooms [] st0 in
  bind (for_each (fun it s =>
                    if is_invite (snd it)
                    then addInvitedRoom cache (fst it) (snd it) s
                    else addRoom cache (fst it) (snd it) s) info st1) (fun st2 =>
  bind (for_each (fun it s =>
                    updateRoomDescription underMouse (fst it) (msgInfo (snd it)) s)
                 info st2) (fun st3 =>
  if bool_decide (rooms_ st3 = []) then Ok st3
  else
    bind (firstRoom st3) (fun room =>
      match snd room with
      | None => Ok st3
      | Some p =>
          Ok (emit (SigRoomChanged (fst room))
                   (on_widget p (setPressedState true) st3))
      end))).

(** ** The events around the deferred sort *)

(** The pointer leaves the list ([leaveEvent]), a description arrives
    ([updateRoomDescription], with what [underMouse()] answers then), or one
    of the outstanding single-shot timers fires.  The event loop fires only
    timers that were started. *)
Inductive Input :=
| HoverExit
| DescriptionUpdate (underMouse : bool) (roomid : QString) (info : DescInfo)
| TimerFires.

Definition handle (e : Input) (st : RoomList) : result RoomList :=
  match e with
  | HoverExit => Ok (leaveEvent st)
  | DescriptionUpdate underMouse roomid info =>
      updateRoomDescription underMouse roomid info st
  | TimerFires =>
      match timers st with
      | O => Ok st
      | S _ => Ok (timeout st)
      end
  end.

Definition run (es : list Input) (st : RoomList) : result RoomList :=
  for_each handle es st.

(** ** Notions the properties are stated with *)

(** Everything of a state but the widgets. *)
Definition frame (st : RoomList) :=
  (rooms_ st, contentsLayout_ st, selectedRoom_ st, isSortPending_ st,
   timers st, trace st).

(** The widget at [p] is in the layout. *)
Definition inLayout (p : ptr) (l : Layout) : bool := existsb (isWidget p) l.

(** What is not a room widget. *)
Definition isOther (i : QLayoutItem) : bool :=
  match i with OtherItem => true | RoomWidget _ => false end.

(** Every entry of the map is null; no entry is. *)
Definition allNull (m : RoomMap) : Prop := Forall (fun e => snd e = None) m.
Definition noneNull (m : RoomMap) : Prop := Forall (fun e => snd e <> None) m.

(** A result whose roster has no null item, or a fault other than stepping
    on the end iterator. *)
Definition keepsItems (r : result RoomList) : Prop :=
  match r with
  | Ok s => noneNull (rooms_ s)
  | Undefined f => f <> EndIteratorDereference
  end.

(** The keys of [rooms_] ascend, as a [std::map] keeps them. *)
Definition keysAscending (m : RoomMap) : Prop :=
  StronglySorted (fun a b => String.ltb (fst a) (fst b) = true) m.

(** The room at the top of the displayed order. *)
Definition firstInSortOrder (st : RoomList) : option QString :=
  match layout_ptrs (contentsLayout_ st) with
  | p :: _ => Some (roomId (widgets st p))
  | [] => None
  end.

(** The sum of the unread counts of the rooms of the roster, as an integer. *)
Definition totalUnread (st : RoomList) : Z :=
  fold_right Z.add 0
    (map (fun p => unreadMessageCount (widgets st p)) (map_ptrs (rooms_ st))).

(** The unread counts of the rooms of the roster, in the order of the roster;
    [runningTotalsFit total counts]: adding the counts to [total] one after
    the other never leaves the range of [int]. *)
Definition unreadCounts (st : RoomList) : list Z :=
  map (fun p => unreadMessageCount (widgets st p)) (map_ptrs (rooms_ st)).

Fixpoint runningTotalsFit (total : Z) (counts : list Z) : bool :=
  match counts with
  | [] => true
  | c :: rest => in_int (total + c) && runningTotalsFit (total + c) rest
  end.

(** The last-activity timestamp of a room as the specification has it: the
    time of the last message in milliseconds since the epoch, 0 when there is
    no message yet. *)
Definition lastActivityTimestamp (w : RoomInfoListItem) : Z :=
  if isEmpty (userid (lastMessageInfo w)) then 0
  else datetime (lastMessageInfo w).

(** An entry that [cleanupInvites] is to drop: an invitation whose id is not
    among the pending ones. *)
Definition droppedInvite (invites : gmap QString bool) (st : RoomList)
    (k : QString) (v : QSharedPointer) : Prop :=
  exists p, v = Some p /\ isInvite (widgets st p) = true /\ invites !! k = None.

(** The keys of a list of entries never grow. *)
Definition descending (m : Times) : Prop :=
  StronglySorted (fun a b => fst b <= fst a) m.

(** [p] stands before [q] in the list [l]. *)
Definition precedes (p q : ptr) (l : list ptr) : Prop :=
  exists l1 l2 l3, l = l1 ++ p :: l2 ++ q :: l3.

(** Sorting would leave the layout as it is. *)
Definition settled (st : RoomList) : Prop :=
  contentsLayout_ (sortRoomsByLastMessage st) = contentsLayout_ st.

(** What holds of every state the events lead to: no widget is twice in the
    layout, and while a timer is outstanding with no sort pending the layout
    is settled. *)
Definition quiet (st : RoomList) : Prop :=
  NoDup (layout_ptrs (contentsLayout_ st)) /\
  (isSortPending_ st = false -> (0 < timers st)%nat -> settled st).

(** ** More of RoomList.cpp: [updateRoom] and [sync] *)

(** Modelled from the spec: [RoomInfoListItem::setRoomType(bool)] is declared
    in RoomInfoListItem.h, which is not part of the sources at hand; it sets
    the invite flag of the room. *)
Definition setRoomType (invite : bool) (w : RoomInfoListItem) : RoomInfoListItem :=
  mkItem (roomId_ w) (roomName_ w) (if invite then Invited else Joined)
         (lastMsgInfo_ w) (unreadMsgCount_ w) (isPressed_ w) (visible_ w)
         (avatar_ w).

(** [updateRoom]: a room that is not in the roster is added, one that is has
    its avatar updated and its name and type set. *)
Definition updateRoom (cache : QString -> QByteArray) (room_id : QString)
    (info : RoomInfo) (st : RoomList) : result RoomList :=
  if negb (roomExists room_id st) then
    if is_invite info then addInvitedRoom cache room_id info st
    else addRoom cache room_id info st
  else
    let room := map_find room_id (rooms_ st) in
    bind (updateAvatar cache room_id (avatar_url info) st) (fun st1 =>
      match room with
      | Some (Some p) =>
          Ok (on_widget p (setRoomType (is_invite info))
                (on_widget p (setRoomName (name info)) st1))
      | _ => Undefined NullDereference
      end).

(** [sync]; [info] is the [std::map] as the list of its entries in key
    order. *)
Definition sync (cache : QString -> QByteArray)
    (info : list (QString * RoomInfo)) (st : RoomList) : result RoomList :=
  for_each (fun room => updateRoom cache (fst room) (snd room)) info st.

(** ** Well-formed states *)

(** The shape the operations keep: the keys of [rooms_] ascend, no item is
    null, no widget is under two ids or twice in the layout, the room widgets
    of the layout are those of the roster, and each widget knows its id. *)
Definition wellFormed (st : RoomList) : Prop :=
  keysAscending (rooms_ st) /\
  noneNull (rooms_ st) /\
  NoDup (map_ptrs (rooms_ st)) /\
  NoDup (layout_ptrs (contentsLayout_ st)) /\
  (forall p, In p (layout_ptrs (contentsLayout_ st)) <->
             In p (map_ptrs (rooms_ st))) /\
  (forall k p, In (k, Some p) (rooms_ st) -> roomId (widgets st p) = k).

(** The ids of the roster. *)
Definition roomIds (st : RoomList) : list QString := map fst (rooms_ st).

(** Two stores that agree on the ids of the widgets. *)
Definition sameIds (h h' : Store) : Prop :=
  forall p, roomId (h' p) = roomId (h p).

(** The same rooms: the roster is the same, the layout holds the same
    widgets, perhaps in another order, and every widget has kept its id. *)
Definition sameRooms (st st' : RoomList) : Prop :=
  rooms_ st' = rooms_ st /\
  Permutation (layout_ptrs (contentsLayout_ st'))
              (layout_ptrs (contentsLayout_ st)) /\
  sameIds (widgets st) (widgets st').

(** What a call of [updateAvatar] leaves behind for a room of the roster: the
    events it appends (none for an empty url, the thumbnail request when
    nothing is cached, the announcement of the cached image otherwise) and
    the widget of the room (with the cached image, when there is one). *)
Definition avatarEvents (cache : QString -> QByteArray) (room_id url : QString)
  : list Event :=
  if isEmpty url then []
  else if isEmpty (cache url) then [RequestThumbnail room_id url]
  else [SigRoomAvatarChanged room_id (cache url)].

Definition withAvatar (cache : QString -> QByteArray) (url : QString)
    (w : RoomInfoListItem) : RoomInfoListItem :=
  if isEmpty url then w
  else if isEmpty (cache url) then w
  else setAvatar (cache url) w.

(** ** Sample rosters *)

Definition message (ts : Z) : DescInfo :=
  mkDescInfo "alice" "@alice:example.org" "hello" "12:00" ts.

Definition joinedRoom (id : QString) (d : DescInfo) : RoomInfoListItem :=
  mkItem id id Joined d 0 false true EmptyString.

Definition invitedRoom (id : QString) : RoomInfoListItem :=
  mkItem id id Invited noMessage 0 false true EmptyString.

(** Three joined rooms, "a" (last message at 10), "b" (at 30) and "c" (at 20),
    and an invitation "d", displayed newest first. *)
Definition sampleStore : Store :=
  fun p =>
    match p with
    | 1 => joinedRoom "a" (message 10)
    | 2 => joinedRoom "b" (message 30)
    | 3 => joinedRoom "c" (message 20)
    | _ => invitedRoom "d"
    end%positive.

Definition sampleRoster : RoomList :=
  mkRoomList
    [("a", Some 1); ("b", Some 2); ("c", Some 3); ("d", Some 4)]%positive
    [RoomWidget 2; RoomWidget 3; RoomWidget 1; RoomWidget 4]%positive
    "c" false sampleStore 0 [].

(** A roster of the single room "a", which is selected. *)
Definition singleRoster : RoomList :=
  mkRoomList [("a", Some 1%positive)] [RoomWidget 1%positive]
             "a" false sampleStore 0 [].

(** A roster that is left with a null entry alone once "a" is removed. *)
Definition nullRoster : RoomList :=
  mkRoomList [("a", Some 1%positive); ("b", None)] [RoomWidget 1%positive]
             "a" false sampleStore 0 [].

(** Five rooms and a spacer in arrival order: "a" (last message at 10), the
    invitation "d" (no message), "b" (at 30), "c" (at 20) and "e" (at 30). *)
Definition unsortedStore : Store :=
  fun p =>
    match p with
    | 1 => joinedRoom "a" (message 10)
    | 2 => joinedRoom "b" (message 30)
    | 3 => joinedRoom "c" (message 20)
    | 4 => invitedRoom "d"
    | _ => joinedRoom "e" (message 30)
    end%positive.

Definition unsortedRoster : RoomList :=
  mkRoomList
    [("a", Some 1); ("b", Some 2); ("c", Some 3); ("d", Some 4); ("e", Some 5)]%positive
    [RoomWidget 1; RoomWidget 4; OtherItem; RoomWidget 2; RoomWidget 3;
     RoomWidget 5]%positive
    "a" true unsortedStore 0 [].

(** The pointer hovers while a message arrives for "a"; it leaves twice,
    starting two timers. *)
Definition twoTimers : list Input :=
  [DescriptionUpdate true "a" (message 50); HoverExit; HoverExit].

(** The sample roster with the last message of "a" dated one second before
    the epoch. *)
Definition preEpochRoster : RoomList :=
  on_widget 1%positive (setDescriptionMessage (message (-1000))) sampleRoster.

(** A cache that holds an image for the url "mxc://bees" alone. *)
Definition sampleCache : QString -> QByteArray :=
  fun url => if String.eqb url "mxc://bees" then "PNG" else EmptyString.

(** The sample roster with the unread count of "a" at [INT_MAX]. *)
Definition overflowRoster : RoomList :=
  on_widget 1%positive (item_updateUnreadMessageCount INT_MAX) sampleRoster.

(** * Properties *)

(** ** The frame and the store *)

Lemma fold_left_frame {A} (step : RoomList -> A -> RoomList) (l : list A) :
  (forall s x, frame (step s x) = frame s) ->
  forall st, frame (fold_left step l st) = frame st.
Proof.
  intros Hstep. induction l as [|x l IH]; intros st; simpl; [reflexivity|].
  rewrite IH. apply Hstep.
Qed.

Lemma store_update_same p f h : store_update p f h p = f (h p).
Proof. unfold store_update. now rewrite Pos.eqb_refl. Qed.

Lemma store_update_other p q f h : q <> p -> store_update p f h q = h q.
Proof.
  intros Hne. unfold store_update.
  destruct (Pos.eqb_spec q p); [contradiction | reflexivity].
Qed.

(** ** The map *)

Lemma map_erase_In k m e : In e (map_erase k m) -> In e m.
Proof.
  induction m as [|[k' v'] m IH]; simpl; [tauto|].
  destruct (String.eqb k k'); [now right|].
  intros [<-|Hin]; [now left | right; auto].
Qed.

(** ** [firstRoom] *)

Lemma firstRoom_scan_end m :
  firstRoom_scan m = Undefined EndIteratorDereference <-> allNull m.
Proof.
  unfold allNull. induction m as [|[k [p|]] m IH]; simpl.
  - split; [constructor | reflexivity].
  - split; [discriminate | intros H; inversion H; discriminate].
  - rewrite IH. split; [now constructor | now inversion 1].
Qed.

Lemma firstRoom_scan_ok m :
  (exists k p, firstRoom_scan m = Ok (k, Some p)) <->
  Exists (fun e => snd e <> None) m.
Proof.
  induction m as [|[k [p|]] m IH]; simpl.
  - split; [intros (k & p & H); discriminate | inversion 1].
  - split; [intros _; now left | intros _; now exists k, p].
  - rewrite IH. split; [intros H; now right|].
    inversion 1; subst; simpl in *; [congruence | assumption].
Qed.

(** What a scan that stays in bounds finds: the first entry, in the map's
    iteration order, that is not null. *)
Lemma firstRoom_scan_first nulls k p rest :
  allNull nulls ->
  firstRoom_scan (nulls ++ (k, Some p) :: rest) = Ok (k, Some p).
Proof.
  induction 1 as [|[k' v'] nulls Hv _ IH]; simpl; [reflexivity|].
  simpl in Hv. now subst v'.
Qed.

Lemma firstRoom_scan_split m k v :
  firstRoom_scan m = Ok (k, v) ->
  exists nulls p rest,
    v = Some p /\ m = nulls ++ (k, Some p) :: rest /\ allNull nulls.
Proof.
  induction m as [|[k' [p'|]] m IH]; simpl; [discriminate| |].
  - intros [= -> <-]. exists [], p', m. repeat split. constructor.
  - intros H. destruct (IH H) as (nulls & p & rest & -> & -> & Hn).
    exists ((k', None) :: nulls), p, rest. repeat split. now constructor.
Qed.

(** [initialize] fills the roster with new widgets only: no entry is null,
    and its call of [firstRoom], guarded by [rooms_.empty()] alone, stays in
    bounds. *)

Lemma map_emplace_noneNull k p m :
  noneNull m -> noneNull (map_emplace k (Some p) m).
Proof.
  unfold noneNull. induction 1 as [|[k' v'] m Hv Hm IH]; simpl.
  - now repeat constructor.
  - destruct (String.eqb k k'); [now constructor|].
    destruct (String.ltb k k'); repeat constructor; auto.
Qed.

Lemma updateRoomAvatar_keepsItems roomid img st :
  noneNull (rooms_ st) -> keepsItems (updateRoomAvatar roomid img st).
Proof.
  intros Hn. unfold updateRoomAvatar.
  destruct (negb (roomExists roomid st)); [exact Hn|].
  destruct (map_find roomid (rooms_ st)) as [[p|]|]; try discriminate.
  exact Hn.
Qed.

Lemma updateAvatar_keepsItems cache room_id url st :
  noneNull (rooms_ st) -> keepsItems (updateAvatar cache room_id url st).
Proof.
  intros Hn. unfold updateAvatar.
  destruct (isEmpty url); [exact Hn|].
  destruct (isEmpty (cache url)); [exact Hn|].
  now apply updateRoomAvatar_keepsItems.
Qed.

Lemma insertNewItem_keepsItems room_id p avatar st :
  (forall s, noneNull (rooms_ s) -> keepsItems (avatar s)) ->
  noneNull (rooms_ st) -> keepsItems (insertNewItem room_id p avatar st).
Proof.
  intros Ha Hn. unfold insertNewItem.
  match goal with |- keepsItems (bind (avatar ?s) _) =>
    assert (H1 : keepsItems (avatar s))
      by (apply Ha; simpl; now apply map_emplace_noneNull);
    destruct (avatar s) as [st2|flt]
  end; simpl in *; [|exact H1].
  destruct (roomExists room_id st); simpl; [discriminate | exact H1].
Qed.

Lemma updateRoomDescription_keepsItems underMouse roomid info st :
  noneNull (rooms_ st) ->
  keepsItems (updateRoomDescription underMouse roomid info st).
Proof.
  intros Hn. unfold updateRoomDescription.
  destruct (negb (roomExists roomid st)); [exact Hn|].
  destruct (map_find roomid (rooms_ st)) as [[p|]|]; try discriminate.
  destruct underMouse; exact Hn.
Qed.

Lemma for_each_keepsItems {A} (f : A -> RoomList -> result RoomList) l :
  (forall x s, noneNull (rooms_ s) -> keepsItems (f x s)) ->
  forall s, noneNull (rooms_ s) -> keepsItems (for_each f l s).
Proof.
  intros Hf. induction l as [|x l IH]; intros s Hs; simpl; [exact Hs|].
  specialize (Hf x s Hs). destruct (f x s) as [s1|flt]; simpl in *; auto.
Qed.

Lemma firstRoom_scan_noneNull m :
  noneNull m -> m <> [] -> exists k p, firstRoom_scan m = Ok (k, Some p).
Proof.
  intros Hn Hne. apply firstRoom_scan_ok.
  destruct Hn as [|e m He _]; [contradiction | now left].
Qed.

Lemma initialize_stays_in_bounds cache underMouse info st :
  initialize cache underMouse info st <> Undefined EndIteratorDereference.
Proof.
  unfold initialize.
  match goal with |- bind (for_each ?f info ?s) _ <> _ =>
    assert (H1 : keepsItems (for_each f info s))
  end.
  { apply for_each_keepsItems; [|constructor].
    intros x s Hs. destruct (is_invite (snd x));
      (apply insertNewItem_keepsItems; [|exact Hs]); intros s' Hs'.
    - now apply updateAvatar_keepsItems.
    - destruct (negb (isEmpty (avatar_url (snd x)))); [|exact Hs'].
      now apply updateAvatar_keepsItems. }
  match goal with |- bind ?r _ <> _ => destruct r as [st2|flt] end;
    simpl in *; [|congruence].
  match goal with |- bind (for_each ?f info ?s) _ <> _ =>
    assert (H2 : keepsItems (for_each f info s))
  end.
  { apply for_each_keepsItems; [|exact H1].
    intros x s Hs. now apply updateRoomDescription_keepsItems. }
  match goal with |- bind ?r _ <> _ => destruct r as [st3|flt] end;
    simpl in *; [|congruence].
  case_bool_decide as He; [discriminate|].
  unfold firstRoom.
  destruct (firstRoom_scan_noneNull _ H2 He) as (k & p & ->). discriminate.
Qed.

Example initialize_sample :
  match initialize (fun _ => EmptyString) false
          [("A"%string, mkRoomInfo "A" EmptyString false (message 100));
           ("B"%string, mkRoomInfo "B" EmptyString true noMessage);
           ("C"%string, mkRoomInfo "C" EmptyString false (message 200))]
          singleRoster
  with
  | Ok st =>
      map (fun p => roomId (widgets st p)) (layout_ptrs (contentsLayout_ st))
      = ["C"; "A"; "B"]%string /\
      trace st = [LogInfo "initialize room list"; SigRoomChanged "A"]
  | Undefined _ => False
  end.
Proof. vm_compute. split; reflexivity. Qed.

(** C9: the scan of [firstRoom] reads [firstRoom->second] before it tests
    for [rooms_.end()].  It stays in bounds exactly when the roster holds a
    non-null item; when every entry is null, and so also on the empty roster,
    it dereferences the end iterator.  [removeRoom] guards the call by
    [rooms_.empty()] alone: with [reset] set it runs into the end iterator
    exactly when what is left after the erase is non-empty and all null.
    [initialize] has the same guard and no other; there the scan stays in
    bounds because the roster was just filled with new widgets. *)
Theorem firstRoom_in_bounds_iff_some_item (st : RoomList) :
  ((exists k p, firstRoom st = Ok (k, Some p)) <->
   Exists (fun e => snd e <> None) (rooms_ st)) /\
  (firstRoom st = Undefined EndIteratorDereference <-> allNull (rooms_ st)) /\
  firstRoom (set_rooms [] st) = Undefined EndIteratorDereference /\
  (forall room_id,
     removeRoom room_id true st = Undefined EndIteratorDereference <->
     map_erase room_id (rooms_ st) <> [] /\
     allNull (map_erase room_id (rooms_ st))) /\
  (forall cache underMouse info,
     initialize cache underMouse info st <> Undefined EndIteratorDereference).
Proof.
  unfold firstRoom. split; [apply firstRoom_scan_ok|].
  split; [apply firstRoom_scan_end|]. split; [reflexivity|].
  split; [|intros; apply initialize_stays_in_bounds].
  intros room_id. unfold removeRoom, firstRoom. simpl.
  set (m := map_erase room_id (rooms_ st)).
  destruct (bool_decide_reflect (m = [])) as [He|Hne]; simpl.
  - split; [discriminate | intros [H _]; contradiction].
  - rewrite <- firstRoom_scan_end.
    destruct (firstRoom_scan m) as [[k [p|]]|f] eqn:E; simpl.
    + split; [discriminate | intros [_ H]; discriminate].
    + apply firstRoom_scan_split in E. destruct E as (? & ? & ? & ? & _).
      discriminate.
    + split; [intros [= ->]; split; [exact Hne | reflexivity]|].
      intros [_ [= ->]]. reflexivity.
Qed.

Lemma firstRoom_in_bounds_sample :
  firstRoom sampleRoster = Ok ("a"%string, Some 1%positive) /\
  removeRoom "a" true nullRoster = Undefined EndIteratorDereference.
Proof. split; reflexivity. Qed.

(** ** [highlightSelectedRoom] *)

Lemma highlight_step_frame room_id s (room : QString * QSharedPointer) :
  frame match snd room with
        | None => s
        | Some p =>
            if negb (String.eqb (fst room) room_id)
            then on_widget p (setPressedState false) s
            else on_widget p (setPressedState true) s
        end = frame s.
Proof. destruct room as [k [p|]]; simpl; [|reflexivity]. now destruct (negb _). Qed.

Lemma highlightSelectedRoom_known room_id st :
  roomExists room_id st = true ->
  trace (highlightSelectedRoom room_id st) = trace st ++ [SigRoomChanged room_id] /\
  selectedRoom_ (highlightSelectedRoom room_id st) = room_id /\
  rooms_ (highlightSelectedRoom room_id st) = rooms_ st /\
  contentsLayout_ (highlightSelectedRoom room_id st) = contentsLayout_ st /\
  isSortPending_ (highlightSelectedRoom room_id st) = isSortPending_ st /\
  timers (highlightSelectedRoom room_id st) = timers st.
Proof.
  intros Hex. unfold highlightSelectedRoom.
  replace (roomExists room_id (emit (SigRoomChanged room_id) st)) with true.
  simpl negb. cbv iota.
  match goal with |- context [fold_left ?f ?l ?s] =>
    pose proof (fold_left_frame f l (highlight_step_frame room_id) s) as Hf
  end.
  unfold frame in Hf. simpl in Hf. injection Hf as H1 H2 H3 H4 H5 H6.
  simpl. repeat split; assumption.
Qed.

(** C10: [highlightSelectedRoom] emits [roomChanged(room_id)] first, whatever
    the id; for an id that is not in the roster it then only logs a warning:
    the selected room, every widget (so every pressed state), the roster and
    the layout stay as they were. *)
Theorem highlightSelectedRoom_signals_before_lookup
    (st : RoomList) (room_id : QString) :
  (exists rest,
     trace (highlightSelectedRoom room_id st)
     = trace st ++ SigRoomChanged room_id :: rest) /\
  (roomExists room_id st = false ->
   let st' := highlightSelectedRoom room_id st in
   trace st' = trace st ++ [SigRoomChanged room_id;
                            LogWarn "roomlist: clicked unknown room_id" []] /\
   selectedRoom_ st' = selectedRoom_ st /\
   widgets st' = widgets st /\
   rooms_ st' = rooms_ st /\
   contentsLayout_ st' = contentsLayout_ st).
Proof.
  split.
  - destruct (roomExists room_id st) eqn:Hex.
    + exists []. now apply highlightSelectedRoom_known.
    + exists [LogWarn "roomlist: clicked unknown room_id" []].
      unfold highlightSelectedRoom.
      replace (roomExists room_id (emit (SigRoomChanged room_id) st)) with false.
      simpl. now rewrite <- app_assoc.
  - intros Hex. unfold highlightSelectedRoom.
    replace (roomExists room_id (emit (SigRoomChanged room_id) st)) with false.
    simpl. rewrite <- app_assoc. repeat split.
Qed.

Example highlight_unknown_sample :
  trace (highlightSelectedRoom "nowhere" sampleRoster)
  = [SigRoomChanged "nowhere"; LogWarn "roomlist: clicked unknown room_id" []].
Proof. reflexivity. Qed.

(** ** [removeFilter] *)

Lemma inLayout_In p l : inLayout p l = true <-> In (RoomWidget p) l.
Proof.
  unfold inLayout. rewrite existsb_exists. split.
  - intros ([q|] & Hin & Hq); simpl in Hq; [|discriminate].
    apply Pos.eqb_eq in Hq. now subst q.
  - intros Hin. exists (RoomWidget p). split; [assumption|]. apply Pos.eqb_refl.
Qed.

Lemma removeFilter_widgets l : forall st p,
  widgets (fold_left (fun s i => match i with
                                 | OtherItem => s
                                 | RoomWidget widget => on_widget widget show s
                                 end) l st) p
  = if inLayout p l then show (widgets st p) else widgets st p.
Proof.
  induction l as [|[q|] l IH]; intros st p; simpl; [reflexivity| |apply IH].
  rewrite IH. simpl.
  destruct (Pos.eqb_spec q p) as [->|Hne]; simpl.
  - rewrite store_update_same. now destruct (inLayout p l).
  - rewrite store_update_other by congruence. reflexivity.
Qed.

(** C7: [removeFilter] shows every room widget of the layout and touches
    nothing else: the roster, the display order, the selected room, the
    pending-sort flag and the trace (no signal, so no new selection) are the
    same, a widget in the layout differs at most in being visible, and a
    widget outside it is untouched. *)
Theorem removeFilter_shows_all_and_keeps_the_rest (st : RoomList) :
  let st' := removeFilter st in
  rooms_ st' = rooms_ st /\
  contentsLayout_ st' = contentsLayout_ st /\
  selectedRoom_ st' = selectedRoom_ st /\
  isSortPending_ st' = isSortPending_ st /\
  timers st' = timers st /\
  trace st' = trace st /\
  (forall p, In (RoomWidget p) (contentsLayout_ st) ->
             isVisible (widgets st' p) = true /\
             widgets st' p = show (widgets st p)) /\
  (forall p, ~ In (RoomWidget p) (contentsLayout_ st) ->
             widgets st' p = widgets st p).
Proof.
  unfold removeFilter.
  match goal with |- context [fold_left ?f ?l ?s] =>
    assert (Hf : frame (fold_left f l s) = frame s)
  end.
  { apply fold_left_frame. intros s [q|]; reflexivity. }
  unfold frame in Hf. injection Hf as H1 H2 H3 H4 H5 H6.
  cbv zeta. repeat (split; [assumption|]). split.
  - intros p Hin. rewrite removeFilter_widgets.
    apply inLayout_In in Hin. rewrite Hin. split; reflexivity.
  - intros p Hin. rewrite removeFilter_widgets.
    destruct (inLayout p (contentsLayout_ st)) eqn:E; [|reflexivity].
    apply inLayout_In in E. contradiction.
Qed.

(** ** [removeRoom] *)

(** C4, as the code has it: a [removeRoom] that erases the last room returns
    at once; [selectedRoom_] keeps its value, no widget is touched and no
    signal is emitted. *)
Theorem removeRoom_last_room_keeps_selectedRoom
    (st : RoomList) (room_id : QString) (reset : bool) :
  map_erase room_id (rooms_ st) = [] ->
  exists st',
    removeRoom room_id reset st = Ok st' /\
    rooms_ st' = [] /\
    selectedRoom_ st' = selectedRoom_ st /\
    widgets st' = widgets st /\
    trace st' = trace st.
Proof.
  intros He. unfold removeRoom. simpl. rewrite He. simpl.
  eexists. split; [reflexivity|]. repeat split.
Qed.

Lemma removeRoom_last_room_witness :
  exists st',
    removeRoom "a" true singleRoster = Ok st' /\
    rooms_ st' = [] /\
    selectedRoom_ st' = selectedRoom_ singleRoster /\
    widgets st' = widgets singleRoster /\
    trace st' = trace singleRoster.
Proof.
  apply (removeRoom_last_room_keeps_selectedRoom singleRoster "a" true).
  reflexivity.
Defined.

(** C4 fails as stated: removing the only room, which is the selected one,
    empties the roster and leaves [selectedRoom_] naming the removed room. *)
Lemma removeRoom_last_room_selection_not_cleared :
  exists st',
    removeRoom "a" true singleRoster = Ok st' /\
    rooms_ st' = [] /\
    selectedRoom_ st' = "a"%string /\
    isEmpty (selectedRoom_ st') = false.
Proof. eexists. split; [reflexivity|]. repeat split. Qed.

Lemma StronglySorted_after {A} (R : A -> A -> Prop) l1 x l2 :
  StronglySorted R (l1 ++ x :: l2) -> Forall (R x) l2.
Proof.
  induction l1 as [|y l1 IH]; simpl; intros H.
  - now inversion H.
  - inversion H; auto.
Qed.

Lemma keysAscending_after nulls x rest :
  keysAscending (nulls ++ x :: rest) ->
  Forall (fun e => String.ltb (fst x) (fst e) = true) rest.
Proof. apply StronglySorted_after. Qed.

Lemma map_erase_keysAscending k m :
  keysAscending m -> keysAscending (map_erase k m).
Proof.
  unfold keysAscending. induction 1 as [|[k' v'] m Hs IH Hall]; simpl.
  - constructor.
  - destruct (String.eqb k k'); [assumption|].
    constructor; [assumption|].
    rewrite List.Forall_forall in *. intros e He.
    apply Hall. eapply map_erase_In, He.
Qed.

(** C5, as the code has it: when [removeRoom] with [reset] leaves a roster
    with a non-null item, the room it marks pressed and announces with
    [roomChanged] is the first non-null entry of [rooms_] in the map's
    iteration order, which is the one with the least id: the display order
    plays no part. *)
Theorem removeRoom_presses_first_room_of_map
    (st : RoomList) (room_id : QString)
    (nulls : RoomMap) (k : QString) (p : ptr) (rest : RoomMap) :
  map_erase room_id (rooms_ st) = nulls ++ (k, Some p) :: rest ->
  allNull nulls ->
  removeRoom room_id true st
  = Ok (emit (SigRoomChanged k)
          (on_widget p (setPressedState true)
             (set_rooms (map_erase room_id (rooms_ st)) st))) /\
  (keysAscending (rooms_ st) ->
   forall k' v', In (k', v') rest -> String.ltb k k' = true).
Proof.
  intros He Hn. split.
  - unfold removeRoom, firstRoom. simpl. rewrite He.
    rewrite firstRoom_scan_first by assumption.
    case_bool_decide as E; [now destruct nulls | reflexivity].
  - intros Hs k' v' Hin.
    apply (map_erase_keysAscending room_id) in Hs. rewrite He in Hs.
    apply keysAscending_after in Hs. rewrite List.Forall_forall in Hs.
    exact (Hs _ Hin).
Qed.

Example sampleRoster_keysAscending : keysAscending (rooms_ sampleRoster).
Proof. unfold keysAscending. simpl. repeat constructor. Qed.

Lemma removeRoom_presses_first_room_witness :
  removeRoom "c" true sampleRoster
  = Ok (emit (SigRoomChanged "a")
          (on_widget 1%positive (setPressedState true)
             (set_rooms (map_erase "c" (rooms_ sampleRoster)) sampleRoster))) /\
  (keysAscending (rooms_ sampleRoster) ->
   forall k' v',
     In (k', v') [("b"%string, Some 2%positive); ("d"%string, Some 4%positive)] ->
     String.ltb "a" k' = true).
Proof.
  apply (removeRoom_presses_first_room_of_map sampleRoster "c" [] "a" 1%positive
           [("b"%string, Some 2%positive); ("d"%string, Some 4%positive)]).
  - reflexivity.
  - constructor.
Defined.

(** C5 fails as stated: in the sample roster the display order is "b", "c",
    "a", "d"; removing "c" leaves "b" on top, yet the room pressed and
    announced is "a", and "b" stays unpressed. *)
Lemma removeRoom_does_not_pick_top_of_sort_order :
  contentsLayout_ (sortRoomsByLastMessage sampleRoster)
  = contentsLayout_ sampleRoster /\
  exists st',
    removeRoom "c" true sampleRoster = Ok st' /\
    rooms_ st' <> [] /\
    firstInSortOrder st' = Some "b"%string /\
    trace st' = [SigRoomChanged "a"] /\
    isPressed_ (widgets st' 1%positive) = true /\
    isPressed_ (widgets st' 2%positive) = false.
Proof.
  split; [reflexivity|]. eexists. split; [reflexivity|].
  repeat split. discriminate.
Qed.

(** ** [cleanupInvites] *)

Lemma filter_sublist {A} (f : A -> bool) (l : list A) :
  sublist (List.filter f l) l.
Proof.
  induction l as [|x l IH]; simpl; [constructor|].
  destruct (f x); now constructor.
Qed.

Lemma staleInvite_spec invites st k v :
  staleInvite invites (widgets st) (k, v) = true <-> droppedInvite invites st k v.
Proof.
  unfold staleInvite, droppedInvite. simpl. destruct v as [p|].
  - split.
    + intros H. apply andb_true_iff in H as [Hi Hf]. exists p.
      destruct (invites !! k); [discriminate | auto].
    + intros (q & [= <-] & Hi & Hf). now rewrite Hi, Hf.
  - split; [discriminate | intros (q & Hq & _); discriminate].
Qed.

Lemma dropDestroyed_keeps old new l p :
  owned p new = true -> In (RoomWidget p) l ->
  In (RoomWidget p) (dropDestroyed old new l).
Proof.
  intros Ho Hin. unfold dropDestroyed. apply filter_In. split; [assumption|].
  unfold destroyed. rewrite Ho. now rewrite andb_false_r.
Qed.

Lemma owned_In k p m : In (k, Some p) m -> owned p m = true.
Proof.
  intros Hin. unfold owned. apply existsb_exists.
  exists (k, Some p). split; [assumption|]. apply Pos.eqb_refl.
Qed.

(** C2: with no pending id at all [cleanupInvites] returns the state as it
    is.  Otherwise the entries it keeps are exactly those that are not an
    invitation with an id outside the pending ones, in their order; no widget
    is modified, nothing is selected or signalled, and in the layout the
    widgets of the kept rooms stay, in their order. *)
Theorem cleanupInvites_drops_exactly_stale_invites
    (invites : gmap QString bool) (st : RoomList) :
  let st' := cleanupInvites invites st in
  (invites = ∅ -> st' = st) /\
  (invites <> ∅ ->
   forall k v, In (k, v) (rooms_ st') <->
               In (k, v) (rooms_ st) /\ ~ droppedInvite invites st k v) /\
  sublist (rooms_ st') (rooms_ st) /\
  widgets st' = widgets st /\
  selectedRoom_ st' = selectedRoom_ st /\
  trace st' = trace st /\
  sublist (contentsLayout_ st') (contentsLayout_ st) /\
  (forall k p, In (k, Some p) (rooms_ st') ->
               In (RoomWidget p) (contentsLayout_ st) ->
               In (RoomWidget p) (contentsLayout_ st')).
Proof.
  unfold cleanupInvites. cbv zeta. split; [|split].
  - intros ->. reflexivity.
  - intros Hne. case_bool_decide as Hs.
    + apply map_size_empty_iff in Hs. contradiction.
    + intros k v. simpl. unfold erase_if. rewrite filter_In.
      rewrite <- staleInvite_spec.
      destruct (staleInvite invites (widgets st) (k, v)); simpl;
        intuition congruence.
  - case_bool_decide as Hs; [repeat split; auto|].
    simpl. repeat split.
    + apply filter_sublist.
    + apply filter_sublist.
    + intros k p Hin Hl. apply dropDestroyed_keeps; [|assumption].
      eapply owned_In, Hin.
Qed.

Example cleanupInvites_sample :
  rooms_ (cleanupInvites ∅ sampleRoster) = rooms_ sampleRoster /\
  rooms_ (cleanupInvites (<["x" := true]> ∅) sampleRoster)
  = [("a"%string, Some 1); ("b"%string, Some 2); ("c"%string, Some 3)]%positive /\
  contentsLayout_ (cleanupInvites (<["x" := true]> ∅) sampleRoster)
  = [RoomWidget 2; RoomWidget 3; RoomWidget 1]%positive /\
  rooms_ (cleanupInvites (<["d" := false]> ∅) sampleRoster) = rooms_ sampleRoster.
Proof. vm_compute. repeat split. Qed.

(** ** [updateUnreadMessageCount] *)

Lemma sumUnread_runningTotals (h : Store) (m : RoomMap) : forall total,
  sumUnread h m total
  = if runningTotalsFit total
         (map (fun p => unreadMessageCount (h p)) (map_ptrs m))
    then Ok (total + fold_right Z.add 0
                       (map (fun p => unreadMessageCount (h p)) (map_ptrs m)))
    else Undefined SignedOverflow.
Proof.
  induction m as [|[k [p|]] m IH]; intros total; simpl.
  - now rewrite Z.add_0_r.
  - unfold int_add. destruct (in_int (total + unreadMessageCount (h p)));
      simpl; [|reflexivity].
    rewrite IH. destruct (runningTotalsFit _ _); [|reflexivity].
    f_equal. lia.
  - apply IH.
Qed.

Lemma calculateUnreadMessageCount_total st :
  calculateUnreadMessageCount st
  = if runningTotalsFit 0 (unreadCounts st)
    then Ok (emit (SigTotalUnreadMessageCountUpdated (totalUnread st)) st)
    else Undefined SignedOverflow.
Proof.
  unfold calculateUnreadMessageCount, totalUnread, unreadCounts.
  rewrite sumUnread_runningTotals.
  now destruct (runningTotalsFit _ _).
Qed.

Lemma sum_nonnegative counts :
  Forall (fun c => 0 <= c) counts -> 0 <= fold_right Z.add 0 counts.
Proof. induction 1; simpl; lia. Qed.

(** Counts that are not negative and add up to an [int] can be added up in
    [int]. *)
Lemma runningTotalsFit_nonnegative counts : forall total,
  0 <= total -> Forall (fun c => 0 <= c) counts ->
  total + fold_right Z.add 0 counts <= INT_MAX ->
  runningTotalsFit total counts = true.
Proof.
  induction counts as [|c counts IH]; intros total Ht Hc Hs; simpl;
    [reflexivity|].
  inversion Hc as [|? ? Hc0 Hcs]; subst. simpl in Hs.
  pose proof (sum_nonnegative counts Hcs) as Hrest.
  apply andb_true_intro. split.
  - unfold in_int, INT_MIN, INT_MAX in *.
    apply andb_true_intro. split; apply Z.leb_le; lia.
  - apply IH; [lia | assumption | lia].
Qed.

(** C3 fails as stated: the total is added up in an [int] from 0, room after
    room in the order of the roster, and an addition that leaves the range of
    [int] is undefined.  With the unread count of "a" at [INT_MAX], as a
    call for "a" on the sample roster leaves it, setting that of "b" to 1
    makes the first two counts overflow: no total is signalled.  (With the count of "c" at -1 in addition the sum over the
    roster is [INT_MAX] and fits; adding up "a" and "b" overflows all the
    same, as the example after it shows.) *)
Lemma updateUnreadMessageCount_total_overflows :
  roomExists "b" overflowRoster = true /\
  map_find "b" (rooms_ overflowRoster) = Some (Some 2%positive) /\
  unreadCounts (on_widget 2%positive (item_updateUnreadMessageCount 1)
                  overflowRoster)
  = [INT_MAX; 1; 0; 0] /\
  updateUnreadMessageCount "b" 1 overflowRoster = Undefined SignedOverflow /\
  bind (updateUnreadMessageCount "a" INT_MAX sampleRoster)
       (updateUnreadMessageCount "b" 1)
  = Undefined SignedOverflow.
Proof. vm_compute. repeat split. Qed.

Example updateUnreadMessageCount_running_total_overflows :
  let st := on_widget 3%positive (item_updateUnreadMessageCount (-1))
              overflowRoster in
  map_find "b" (rooms_ st) = Some (Some 2%positive) /\
  totalUnread (on_widget 2%positive (item_updateUnreadMessageCount 1) st)
  = INT_MAX /\
  updateUnreadMessageCount "b" 1 st = Undefined SignedOverflow.
Proof. vm_compute. repeat split. Qed.

(** C3, amended: for an id that is not in the roster
    [updateUnreadMessageCount] only logs a warning: the state is otherwise
    the same and no total is signalled.  For the id of a room it sets that
    room's unread count and adds up the unread counts of the roster in [int];
    when no running total leaves the range of [int] the other widgets are
    left alone and the total signalled is the sum over the roster, otherwise
    the addition overflows and the behaviour is undefined.  No running total
    leaves the range when no count is negative and the sum is at most
    [INT_MAX]. *)
Theorem updateUnreadMessageCount_sets_count_and_signals_sum_in_int
    (st : RoomList) (roomid : QString) (count : Z) :
  (roomExists roomid st = false ->
   updateUnreadMessageCount roomid count st
   = Ok (emit (LogWarn "updateUnreadMessageCount: unknown room_id {}" [roomid])
              st)) /\
  (forall p, map_find roomid (rooms_ st) = Some (Some p) ->
   let st1 := on_widget p (item_updateUnreadMessageCount count) st in
   (runningTotalsFit 0 (unreadCounts st1) = true ->
    exists st',
      updateUnreadMessageCount roomid count st = Ok st' /\
      rooms_ st' = rooms_ st /\
      contentsLayout_ st' = contentsLayout_ st /\
      selectedRoom_ st' = selectedRoom_ st /\
      widgets st' p = item_updateUnreadMessageCount count (widgets st p) /\
      unreadMessageCount (widgets st' p) = count /\
      (forall q, q <> p -> widgets st' q = widgets st q) /\
      trace st'
      = trace st ++ [SigTotalUnreadMessageCountUpdated (totalUnread st')]) /\
   (runningTotalsFit 0 (unreadCounts st1) = false ->
    updateUnreadMessageCount roomid count st = Undefined SignedOverflow) /\
   (Forall (fun c => 0 <= c) (unreadCounts st1) ->
    totalUnread st1 <= INT_MAX ->
    runningTotalsFit 0 (unreadCounts st1) = true)).
Proof.
  unfold updateUnreadMessageCount, roomExists. split.
  - intros H. destruct (map_find roomid (rooms_ st)); [discriminate|reflexivity].
  - intros p Hp. cbv zeta. rewrite Hp. simpl.
    set (st1 := on_widget p (item_updateUnreadMessageCount count) st).
    rewrite calculateUnreadMessageCount_total.
    split; [|split].
    + intros ->. eexists. split; [reflexivity|]. subst st1. simpl.
      repeat split.
      * apply store_update_same.
      * now rewrite store_update_same.
      * intros q Hq. now apply store_update_other.
    + now intros ->.
    + intros Hc Hs. apply runningTotalsFit_nonnegative; [lia | exact Hc |].
      unfold totalUnread, unreadCounts in *. lia.
Qed.

Example updateUnreadMessageCount_sample :
  (exists st',
     updateUnreadMessageCount "b" 5
       (on_widget 1%positive (item_updateUnreadMessageCount 2) sampleRoster)
     = Ok st' /\
     trace st' = [SigTotalUnreadMessageCountUpdated 7] /\ totalUnread st' = 7) /\
  updateUnreadMessageCount "x" 5 sampleRoster
  = Ok (emit (LogWarn "updateUnreadMessageCount: unknown room_id {}" ["x"%string])
             sampleRoster).
Proof. split; [eexists; split; [reflexivity|]; split; reflexivity | reflexivity]. Qed.

(** ** [applyFilter] *)

Lemma contains_dom (filter : gmap QString bool) k :
  contains filter k = true <-> k ∈ dom filter.
Proof.
  unfold contains. rewrite elem_of_dom.
  destruct (filter !! k) as [b|]; split; intros H; done.
Qed.

Lemma contains_not_dom (filter : gmap QString bool) k :
  contains filter k = false <-> k ∉ dom filter.
Proof.
  rewrite <- contains_dom. destruct (contains filter k); split; congruence.
Qed.

Lemma applyFilter_loop_frame (filter : gmap QString bool) l st :
  frame (fold_left (fun s i =>
                      match i with
                      | OtherItem => s
                      | RoomWidget listitem =>
                          if contains filter (roomId (widgets s listitem))
                          then on_widget listitem show s
                          else on_widget listitem hide s
                      end) l st) = frame st.
Proof.
  apply fold_left_frame. intros s [q|]; [|reflexivity].
  now destruct (contains _ _).
Qed.

Lemma applyFilter_loop_widgets (filter : gmap QString bool) l : forall st p,
  widgets (fold_left (fun s i =>
                        match i with
                        | OtherItem => s
                        | RoomWidget listitem =>
                            if contains filter (roomId (widgets s listitem))
                            then on_widget listitem show s
                            else on_widget listitem hide s
                        end) l st) p
  = if inLayout p l
    then setVisible (contains filter (roomId (widgets st p))) (widgets st p)
    else widgets st p.
Proof.
  induction l as [|[q|] l IH]; intros st p; simpl; [reflexivity| |apply IH].
  rewrite IH.
  destruct (Pos.eqb_spec q p) as [->|Hne]; simpl.
  - unfold roomId in *.
    destruct (contains filter (roomId_ (widgets st p))) eqn:E; simpl;
      rewrite store_update_same; simpl; rewrite E;
      now destruct (inLayout p l).
  - destruct (contains filter (roomId (widgets st q))); simpl;
      now rewrite store_update_other by congruence.
Qed.

Lemma firstVisible_found h before p after :
  (forall q, In (RoomWidget q) before -> isVisible (h q) = false) ->
  isVisible (h p) = true ->
  firstVisible h (before ++ RoomWidget p :: after) = Some p.
Proof.
  intros Hb Hp. induction before as [|[q|] before IH]; simpl.
  - now rewrite Hp.
  - rewrite (Hb q) by now left. apply IH. intros r Hr. apply Hb. now right.
  - apply IH. intros r Hr. apply Hb. now right.
Qed.

Lemma firstVisible_none h l :
  (forall q, In (RoomWidget q) l -> isVisible (h q) = false) ->
  firstVisible h l = None.
Proof.
  induction l as [|[q|] l IH]; simpl; intros Hl; [reflexivity| |].
  - rewrite (Hl q) by now left. apply IH. intros r Hr. apply Hl. now right.
  - apply IH. intros r Hr. apply Hl. now right.
Qed.

(** [highlightSelectedRoom] changes nothing of a widget but its pressed
    mark. *)
Lemma highlight_loop_widgets room_id (m : RoomMap) : forall st q,
  exists b,
    widgets (fold_left (fun s room =>
               match snd room with
               | None => s
               | Some p =>
                   if negb (String.eqb (fst room) room_id)
                   then on_widget p (setPressedState false) s
                   else on_widget p (setPressedState true) s
               end) m st) q
    = setPressedState b (widgets st q).
Proof.
  induction m as [|[k [p|]] m IH]; intros st q; simpl.
  - exists (isPressed_ (widgets st q)). now destruct (widgets st q).
  - match goal with |- context [fold_left _ m ?s] =>
      destruct (IH s q) as [b Hb] end.
    rewrite Hb. destruct (negb (k =? room_id)%string); simpl;
      (destruct (Pos.eqb_spec q p) as [->|Hne];
       [rewrite store_update_same | rewrite store_update_other by assumption]);
      now exists b.
  - apply IH.
Qed.

Lemma highlightSelectedRoom_widgets room_id st q :
  exists b,
    widgets (highlightSelectedRoom room_id st) q
    = setPressedState b (widgets st q).
Proof.
  unfold highlightSelectedRoom.
  destruct (negb (roomExists room_id (emit (SigRoomChanged room_id) st))).
  - exists (isPressed_ (widgets st q)). simpl. now destruct (widgets st q).
  - simpl. apply (highlight_loop_widgets room_id _ (emit _ st) q).
Qed.

(** With each widget under one id, [highlightSelectedRoom] leaves pressed
    exactly the widget of the highlighted room. *)
Lemma highlight_loop_pressed room_id (m : RoomMap) : forall st,
  NoDup (map_ptrs m) ->
  (forall k q, In (k, Some q) m ->
     isPressed_ (widgets (fold_left (fun s room =>
               match snd room with
               | None => s
               | Some p =>
                   if negb (String.eqb (fst room) room_id)
                   then on_widget p (setPressedState false) s
                   else on_widget p (setPressedState true) s
               end) m st) q) = String.eqb k room_id) /\
  (forall q, ~ In q (map_ptrs m) ->
     widgets (fold_left (fun s room =>
               match snd room with
               | None => s
               | Some p =>
                   if negb (String.eqb (fst room) room_id)
                   then on_widget p (setPressedState false) s
                   else on_widget p (setPressedState true) s
               end) m st) q = widgets st q).
Proof.
  induction m as [|[k' [p|]] m IH]; intros st Hnd; simpl in *.
  - split; [intros k q [] | reflexivity].
  - apply NoDup_cons in Hnd as [Hp Hnd]. rewrite list_elem_of_In in Hp.
    match goal with |- context [fold_left _ m ?s] =>
      destruct (IH s Hnd) as [IH1 IH2] end.
    split.
    + intros k q [[= -> ->]|Hin]; [|now apply IH1].
      rewrite IH2 by assumption.
      destruct (k =? room_id)%string; simpl; now rewrite store_update_same.
    + intros q Hq. rewrite IH2 by tauto.
      destruct (negb (k' =? room_id)%string); simpl;
        apply store_update_other; intros ->; tauto.
  - destruct (IH st Hnd) as [IH1 IH2]. split; [|assumption].
    intros k q [[=]|Hin]. now apply IH1.
Qed.

Lemma isEmpty_spec s : isEmpty s = true <-> s = EmptyString.
Proof. destruct s; simpl; split; congruence. Qed.

(** C6: after [applyFilter] a room widget of the layout is visible exactly
    when its room id is a key of the filter, whatever the key maps to.  When
    the selected id is a key, nothing is selected anew: the selection, the
    pressed marks and the trace are as before.  Otherwise the first room of
    the display order whose id is a key is highlighted: it becomes the
    selected room, [roomChanged] is emitted for it, and it alone is pressed;
    and when no room is visible nothing is selected and nothing signalled. *)
Theorem applyFilter_visibility_and_selection
    (filter : gmap QString bool) (st : RoomList) :
  let st' := applyFilter filter st in
  (rooms_ st' = rooms_ st /\ contentsLayout_ st' = contentsLayout_ st) /\
  (forall p, In (RoomWidget p) (contentsLayout_ st) ->
     (isVisible (widgets st' p) = true <-> roomId (widgets st p) ∈ dom filter)) /\
  (selectedRoom_ st <> EmptyString -> selectedRoom_ st ∈ dom filter ->
     selectedRoom_ st' = selectedRoom_ st /\
     trace st' = trace st /\
     forall p, isPressed_ (widgets st' p) = isPressed_ (widgets st p)) /\
  (selectedRoom_ st = EmptyString \/ selectedRoom_ st ∉ dom filter ->
     (forall before p after,
        contentsLayout_ st = before ++ RoomWidget p :: after ->
        (forall q, In (RoomWidget q) before ->
                   roomId (widgets st q) ∉ dom filter) ->
        roomId (widgets st p) ∈ dom filter ->
        roomExists (roomId (widgets st p)) st = true ->
        selectedRoom_ st' = roomId (widgets st p) /\
        trace st' = trace st ++ [SigRoomChanged (roomId (widgets st p))] /\
        (NoDup (map_ptrs (rooms_ st)) ->
         forall k q, In (k, Some q) (rooms_ st) ->
           (isPressed_ (widgets st' q) = true <-> k = roomId (widgets st p)))) /\
     ((forall q, In (RoomWidget q) (contentsLayout_ st) ->
                 roomId (widgets st q) ∉ dom filter) ->
      selectedRoom_ st' = selectedRoom_ st /\
      trace st' = trace st /\
      forall p, isPressed_ (widgets st' p) = isPressed_ (widgets st p))).
Proof.
  unfold applyFilter. cbv zeta.
  set (loop := fold_left _ (contentsLayout_ st) st).
  assert (Hf : frame loop = frame st) by apply applyFilter_loop_frame.
  assert (Hw : forall p, widgets loop p
             = if inLayout p (contentsLayout_ st)
               then setVisible (contains filter (roomId (widgets st p)))
                               (widgets st p)
               else widgets st p) by apply applyFilter_loop_widgets.
  unfold frame in Hf. injection Hf as Hr Hl Hs Hp Ht Htr.
  assert (Hpress : forall p, isPressed_ (widgets loop p) = isPressed_ (widgets st p)).
  { intros p. rewrite Hw. now destruct (inLayout p (contentsLayout_ st)). }
  assert (Hvis : forall p, In (RoomWidget p) (contentsLayout_ st) ->
             isVisible (widgets loop p) = contains filter (roomId (widgets st p))).
  { intros p Hin. rewrite Hw. apply inLayout_In in Hin. now rewrite Hin. }
  assert (Hid : forall p, roomId (widgets loop p) = roomId (widgets st p)).
  { intros p. rewrite Hw. now destruct (inLayout p (contentsLayout_ st)). }
  rewrite Hs. split; [|split; [|split]].
  - destruct (negb (isEmpty (selectedRoom_ st)) && contains filter (selectedRoom_ st));
      [now split|].
    unfold selectFirstVisibleRoom.
    destruct (firstVisible (widgets loop) (contentsLayout_ loop)) as [item|];
      [|now split].
    unfold highlightSelectedRoom.
    destruct (negb (roomExists _ _)); simpl; [now split|].
    match goal with |- context [fold_left ?f ?l ?s] =>
      pose proof (fold_left_frame f l (highlight_step_frame _) s) as Hh end.
    unfold frame in Hh. injection Hh as H1 H2 _ _ _ _.
    rewrite H1, H2. now split.
  - intros p Hin. rewrite <- contains_dom, <- (Hvis p Hin).
    destruct (negb (isEmpty (selectedRoom_ st)) && contains filter (selectedRoom_ st));
      [reflexivity|].
    unfold selectFirstVisibleRoom.
    destruct (firstVisible (widgets loop) (contentsLayout_ loop)) as [item|];
      [|reflexivity].
    destruct (highlightSelectedRoom_widgets (roomId (widgets loop item)) loop p)
      as [b ->]. reflexivity.
  - intros Hne Hin. apply contains_dom in Hin. rewrite Hin.
    destruct (isEmpty (selectedRoom_ st)) eqn:E.
    + apply isEmpty_spec in E. contradiction.
    + simpl. auto.
  - intros Hsel.
    assert (Hcond : negb (isEmpty (selectedRoom_ st))
                    && contains filter (selectedRoom_ st) = false).
    { destruct Hsel as [->|Hn]; [reflexivity|].
      apply contains_not_dom in Hn. rewrite Hn. apply andb_false_r. }
    rewrite Hcond. unfold selectFirstVisibleRoom. rewrite Hl. split.
    + intros before p after Hlay Hbefore Hallowed Hex.
      rewrite Hlay, firstVisible_found.
      * rewrite Hid.
        assert (Hex' : roomExists (roomId (widgets st p)) loop = true).
        { unfold roomExists in *. now rewrite Hr. }
        destruct (highlightSelectedRoom_known _ _ Hex')
          as (T1 & T2 & _). rewrite T1, T2, Htr.
        split; [reflexivity|]. split; [reflexivity|].
        intros Hnd k q Hin.
        unfold highlightSelectedRoom.
        replace (roomExists (roomId (widgets st p))
                   (emit (SigRoomChanged (roomId (widgets st p))) loop))
          with true.
        simpl. rewrite Hr.
        match goal with |- context [fold_left _ _ ?s] =>
          destruct (highlight_loop_pressed (roomId (widgets st p))
                      (rooms_ st) s Hnd) as [P1 _] end.
        rewrite (P1 k q Hin). apply String.eqb_eq.
      * intros q Hq. rewrite Hvis.
        -- apply contains_not_dom. now apply Hbefore.
        -- rewrite Hlay. apply in_or_app. now left.
      * rewrite Hvis.
        -- now apply contains_dom.
        -- rewrite Hlay. apply in_or_app. right. now left.
    + intros Hnone. rewrite firstVisible_none; [auto|].
      intros q Hq. rewrite Hvis by assumption.
      apply contains_not_dom. now apply Hnone.
Qed.

Example applyFilter_sample :
  let shown st := map (fun p => isVisible (widgets st p)) [1; 2; 3; 4]%positive in
  let pressed st := map (fun p => isPressed_ (widgets st p)) [1; 2; 3; 4]%positive in
  let keep_c := applyFilter (<["c" := false]> (<["a" := false]> ∅)) sampleRoster in
  let drop_c := applyFilter (<["d" := true]> (<["a" := false]> ∅)) sampleRoster in
  let none := applyFilter (<["x" := true]> ∅) sampleRoster in
  (shown keep_c = [true; false; true; false] /\
   selectedRoom_ keep_c = "c"%string /\ trace keep_c = []) /\
  (shown drop_c = [true; false; false; true] /\
   selectedRoom_ drop_c = "a"%string /\ trace drop_c = [SigRoomChanged "a"] /\
   pressed drop_c = [true; false; false; false]) /\
  (shown none = [false; false; false; false] /\
   selectedRoom_ none = "c"%string /\ trace none = []).
Proof. vm_compute. repeat split. Qed.

(** ** [sortRoomsByLastMessage] *)

(** *** The multimap: an insertion that keeps equal keys in arrival order *)

Lemma multimap_emplace_perm k v m :
  Permutation (multimap_emplace k v m) ((k, v) :: m).
Proof.
  induction m as [|[k' v'] m IH]; simpl; [reflexivity|].
  destruct (k' <? k); [reflexivity|].
  etransitivity; [apply perm_skip, IH | apply perm_swap].
Qed.

Lemma multimap_emplace_descending k v m :
  descending m -> descending (multimap_emplace k v m).
Proof.
  unfold descending. induction 1 as [|[k' v'] m Hs IH Hall]; simpl.
  - repeat constructor.
  - destruct (Z.ltb_spec k' k) as [Hlt|Hge].
    + constructor; [now constructor|]. constructor; [simpl; lia|].
      eapply List.Forall_impl; [|exact Hall]. simpl. intros ? ?. lia.
    + constructor; [assumption|].
      eapply Permutation_Forall; [symmetry; apply multimap_emplace_perm|].
      constructor; [simpl; lia | assumption].
Qed.

Lemma filter_none {A} (f : A -> bool) l :
  Forall (fun x => f x = false) l -> List.filter f l = [].
Proof. induction 1 as [|x l Hx _ IH]; simpl; [reflexivity|]. now rewrite Hx. Qed.

Lemma multimap_emplace_filter k0 k v m :
  descending m ->
  List.filter (fun e => fst e =? k0) (multimap_emplace k v m)
  = List.filter (fun e => fst e =? k0) m ++ (if k =? k0 then [(k, v)] else []).
Proof.
  unfold descending. induction 1 as [|[k' v'] m Hs IH Hall]; simpl.
  - now destruct (k =? k0).
  - destruct (Z.ltb_spec k' k) as [Hlt|Hge]; simpl.
    + destruct (Z.eqb_spec k k0) as [->|Hne]; [|now rewrite app_nil_r].
      destruct (Z.eqb_spec k' k0) as [->|_]; [lia|].
      rewrite filter_none; [reflexivity|].
      eapply List.Forall_impl; [|exact Hall]. simpl. intros e He.
      apply Z.eqb_neq. lia.
    + rewrite IH. now destruct (k' =? k0).
Qed.

(** *** Filing the rooms of the layout *)

Section CollectTimes.

Variable h : Store.

Let key (p : ptr) : Z := sortKey (h p).
Let entry (p : ptr) : Z * ptr := (key p, p).

Lemma collectTimes_fold l : forall acc,
  fold_left (fun times i =>
               match i with
               | OtherItem => times
               | RoomWidget room => multimap_emplace (sortKey (h room)) room times
               end) l acc
  = fold_left (fun times p => multimap_emplace (key p) p times)
              (layout_ptrs l) acc.
Proof.
  induction l as [|[p|] l IH]; intros acc; simpl; [reflexivity| |]; apply IH.
Qed.

Lemma fold_emplace_perm ps : forall acc,
  Permutation (fold_left (fun times p => multimap_emplace (key p) p times) ps acc)
              (acc ++ map entry ps).
Proof.
  induction ps as [|p ps IH]; intros acc; simpl.
  - now rewrite app_nil_r.
  - etransitivity; [apply IH|].
    etransitivity; [apply Permutation_app_tail, multimap_emplace_perm|].
    simpl. apply Permutation_middle.
Qed.

Lemma fold_emplace_descending ps : forall acc,
  descending acc ->
  descending (fold_left (fun times p => multimap_emplace (key p) p times) ps acc).
Proof.
  induction ps as [|p ps IH]; intros acc Hacc; simpl; [assumption|].
  apply IH. now apply multimap_emplace_descending.
Qed.

Lemma fold_emplace_filter k0 ps : forall acc,
  descending acc ->
  List.filter (fun e => fst e =? k0)
    (fold_left (fun times p => multimap_emplace (key p) p times) ps acc)
  = List.filter (fun e => fst e =? k0) acc
    ++ List.filter (fun e => fst e =? k0) (map entry ps).
Proof.
  induction ps as [|p ps IH]; intros acc Hacc; simpl.
  - now rewrite app_nil_r.
  - rewrite IH by now apply multimap_emplace_descending.
    rewrite multimap_emplace_filter by assumption.
    rewrite <- app_assoc. f_equal. now destruct (key p =? k0).
Qed.

Lemma entries_of_ptrs (m : Times) :
  Forall (fun e => fst e = key (snd e)) m -> m = map entry (map snd m).
Proof.
  induction 1 as [|[k v] m Hk _ IH]; simpl; [reflexivity|].
  simpl in Hk. subst k. now f_equal.
Qed.

Lemma descending_entries ps :
  descending (map entry ps) ->
  StronglySorted (fun p q => key q <= key p) ps.
Proof.
  unfold descending. induction ps as [|p ps IH]; simpl; intros H.
  - constructor.
  - inversion H as [|? ? Hs Hall]; subst. constructor; [now apply IH|].
    rewrite List.Forall_forall in *. intros q Hq.
    apply (Hall (entry q)). now apply in_map.
Qed.

Lemma filter_entries k0 ps :
  map snd (List.filter (fun e => fst e =? k0) (map entry ps))
  = List.filter (fun p => key p =? k0) ps.
Proof.
  induction ps as [|p ps IH]; simpl; [reflexivity|].
  destruct (key p =? k0); simpl; now rewrite IH.
Qed.

(** The filed rooms: the rooms of the layout, by descending key, those with
    equal keys in the order the layout had them. *)
Lemma collectTimes_sorted l :
  let sorted := map snd (collectTimes h l) in
  collectTimes h l = map entry sorted /\
  Permutation sorted (layout_ptrs l) /\
  StronglySorted (fun p q => key q <= key p) sorted /\
  forall k0, List.filter (fun p => key p =? k0) sorted
             = List.filter (fun p => key p =? k0) (layout_ptrs l).
Proof.
  cbv zeta. unfold collectTimes. rewrite collectTimes_fold.
  set (times := fold_left (fun times p => multimap_emplace (key p) p times)
                          (layout_ptrs l) []).
  assert (Hperm : Permutation times (map entry (layout_ptrs l))).
  { apply (fold_emplace_perm (layout_ptrs l) []). }
  assert (Hdesc : descending times).
  { apply fold_emplace_descending. constructor. }
  assert (Hent : times = map entry (map snd times)).
  { apply entries_of_ptrs.
    eapply Permutation_Forall; [symmetry; exact Hperm|].
    apply List.Forall_forall. intros e He. apply in_map_iff in He.
    now destruct He as (p & <- & _). }
  split; [assumption|]. split; [|split].
  - apply (Permutation_map snd) in Hperm.
    etransitivity; [exact Hperm|]. rewrite map_map. simpl.
    now rewrite map_id.
  - apply descending_entries. now rewrite <- Hent.
  - intros k0. rewrite <- !filter_entries, <- Hent. f_equal.
    apply (fold_emplace_filter k0 (layout_ptrs l) []). constructor.
Qed.

End CollectTimes.

(** *** Moving the widgets to their places *)

Lemma layout_ptrs_app l1 l2 :
  layout_ptrs (l1 ++ l2) = layout_ptrs l1 ++ layout_ptrs l2.
Proof. unfold layout_ptrs. apply flat_map_app. Qed.

Lemma layout_ptrs_In w l : In w (layout_ptrs l) <-> In (RoomWidget w) l.
Proof.
  unfold layout_ptrs. rewrite in_flat_map. split.
  - intros ([q|] & Hin & Hw); simpl in Hw; [|contradiction].
    destruct Hw as [->|[]]. assumption.
  - intros Hin. exists (RoomWidget w). split; [assumption | now left].
Qed.

Lemma layout_ptrs_rooms ps : layout_ptrs (map RoomWidget ps) = ps.
Proof. induction ps as [|p ps IH]; simpl; [reflexivity | now rewrite IH]. Qed.

Lemma isWidget_false_outside w (P : Layout) :
  ~ In (RoomWidget w) P -> Forall (fun i => isWidget w i = false) P.
Proof.
  intros Hn. apply List.Forall_forall. intros [q|] Hq; simpl; [|reflexivity].
  apply Pos.eqb_neq. intros ->. contradiction.
Qed.

Lemma indexOf_lower w l : -1 <= indexOf w l.
Proof.
  induction l as [|i l IH]; simpl; [lia|].
  destruct (isWidget w i); [lia|]. destruct (Z.ltb_spec (indexOf w l) 0); lia.
Qed.

Lemma indexOf_found w l : In (RoomWidget w) l -> 0 <= indexOf w l.
Proof.
  induction l as [|i l IH]; simpl; [tauto|].
  intros [->|Hin]; simpl; [now rewrite Pos.eqb_refl|].
  destruct (isWidget w i); [lia|]. specialize (IH Hin).
  destruct (Z.ltb_spec (indexOf w l) 0); lia.
Qed.

Lemma indexOf_app w (P R : Layout) :
  ~ In (RoomWidget w) P -> In (RoomWidget w) R ->
  indexOf w (P ++ R) = count P + indexOf w R.
Proof.
  intros Hn Hin. apply isWidget_false_outside in Hn.
  pose proof (indexOf_found w R Hin) as Hr.
  unfold count. induction Hn as [|i P Hi _ IH]; simpl length; simpl app.
  - simpl. lia.
  - simpl. rewrite Hi. destruct (Z.ltb_spec (indexOf w (P ++ R)) 0); lia.
Qed.

Lemma indexOf_first w l :
  indexOf w l = 0 -> exists l', l = RoomWidget w :: l' /\ removeWidget w l = l'.
Proof.
  destruct l as [|[q|] l]; simpl; [lia| |].
  - destruct (Pos.eqb_spec q w) as [->|Hne].
    + intros _. now exists l.
    + pose proof (indexOf_lower w l). destruct (Z.ltb_spec (indexOf w l) 0); lia.
  - pose proof (indexOf_lower w l). destruct (Z.ltb_spec (indexOf w l) 0); lia.
Qed.

Lemma removeWidget_app w (P R : Layout) :
  ~ In (RoomWidget w) P -> removeWidget w (P ++ R) = P ++ removeWidget w R.
Proof.
  intros Hn. apply isWidget_false_outside in Hn.
  induction Hn as [|i P Hi _ IH]; simpl; [reflexivity|].
  now rewrite Hi, IH.
Qed.

Lemma insertWidget_after w (P R : Layout) :
  insertWidget (count P) w (P ++ R) = P ++ RoomWidget w :: R.
Proof.
  unfold insertWidget, count.
  destruct (Z.ltb_spec (Z.of_nat (length P)) 0) as [Hneg|_]; [lia|].
  destruct (Z.ltb_spec (Z.of_nat (length (P ++ R))) (Z.of_nat (length P)))
    as [Hlt|_].
  - rewrite length_app in Hlt. lia.
  - simpl. rewrite Nat2Z.id. now rewrite take_app_length, drop_app_length.
Qed.

Lemma removeWidget_perm w (R : Layout) :
  In (RoomWidget w) R ->
  Permutation (layout_ptrs R) (w :: layout_ptrs (removeWidget w R)).
Proof.
  induction R as [|[q|] R IH]; simpl; [tauto| |].
  - destruct (Pos.eqb_spec q w) as [->|Hne]; [reflexivity|].
    intros [[= ->]|Hin]; [contradiction|].
    simpl. etransitivity; [apply perm_skip, IH, Hin | apply perm_swap].
  - intros [[=]|Hin]. now apply IH.
Qed.

Lemma removeWidget_others w (R : Layout) :
  List.filter isOther (removeWidget w R) = List.filter isOther R.
Proof.
  induction R as [|[q|] R IH]; simpl; [reflexivity| |now rewrite IH].
  destruct (Pos.eqb q w); simpl; [reflexivity | assumption].
Qed.

Lemma no_rooms_others (R : Layout) :
  layout_ptrs R = [] -> List.filter isOther R = R.
Proof.
  induction R as [|[q|] R IH]; simpl; [reflexivity|discriminate|].
  intros H. now rewrite IH.
Qed.

Lemma reposition_cons k w rest i l :
  reposition ((k, w) :: rest) i l
  = reposition rest (i + 1)
      (if indexOf w l =? i then l
       else insertWidget i w (removeWidget w l)).
Proof. reflexivity. Qed.

(** The second loop of [sortRoomsByLastMessage], started at position
    [count P] on a layout [P ++ R] whose unplaced rooms are those of [times]:
    it puts the rooms of [times] after [P], in their order, and what is not a
    room behind them. *)
Lemma reposition_places (times : Times) : forall (P R : Layout),
  NoDup (layout_ptrs (P ++ R)) ->
  Permutation (map snd times) (layout_ptrs R) ->
  reposition times (count P) (P ++ R)
  = P ++ map RoomWidget (map snd times) ++ List.filter isOther R.
Proof.
  induction times as [|[k w] times IH]; intros P R Hnd Hperm.
  - simpl in *. apply Permutation_nil in Hperm. now rewrite no_rooms_others.
  - rewrite reposition_cons. simpl in Hperm.
    assert (HinR : In (RoomWidget w) R).
    { apply layout_ptrs_In. eapply Permutation_in; [exact Hperm | now left]. }
    assert (HnP : ~ In (RoomWidget w) P).
    { rewrite layout_ptrs_app in Hnd. apply NoDup_app in Hnd as (_ & Hd & _).
      intros HinP. apply (Hd w).
      - apply list_elem_of_In, layout_ptrs_In, HinP.
      - apply list_elem_of_In, layout_ptrs_In, HinR. }
    pose proof (removeWidget_perm w R HinR) as Hrem.
    match goal with |- reposition times _ ?next = _ =>
      assert (Hnext : next = (P ++ [RoomWidget w]) ++ removeWidget w R)
    end.
    { rewrite indexOf_app by assumption.
      destruct (Z.eqb_spec (count P + indexOf w R) (count P)) as [He|Hne].
      - assert (H0 : indexOf w R = 0) by lia.
        destruct (indexOf_first w R H0) as (R' & -> & ->).
        now rewrite <- app_assoc.
      - rewrite removeWidget_app by assumption.
        rewrite insertWidget_after. now rewrite <- app_assoc. }
    rewrite Hnext.
    replace (count P + 1) with (count (P ++ [RoomWidget w]))
      by (unfold count; rewrite length_app; simpl; lia).
    rewrite IH.
    + rewrite removeWidget_others, <- app_assoc. reflexivity.
    + rewrite <- app_assoc. simpl.
      rewrite layout_ptrs_app in *. simpl.
      eapply NoDup_Permutation_proper; [|exact Hnd].
      symmetry. etransitivity; [apply Permutation_app_head, Hrem|].
      reflexivity.
    + eapply Permutation_cons_inv. etransitivity; [exact Hperm | exact Hrem].
Qed.

Lemma layout_ptrs_others l : layout_ptrs (List.filter isOther l) = [].
Proof. induction l as [|[q|] l IH]; simpl; auto. Qed.

Lemma sorted_precedes (key : ptr -> Z) l p q :
  StronglySorted (fun a b => key b <= key a) l ->
  In p l -> In q l -> key q < key p -> precedes p q l.
Proof.
  intros Hs Hp Hq Hlt. apply in_split in Hq as (a & b & ->).
  apply StronglySorted_after in Hs. rewrite List.Forall_forall in Hs.
  apply in_app_or in Hp as [Ha|[->|Hb]].
  - apply in_split in Ha as (l1 & l2 & ->). exists l1, l2, b.
    now rewrite <- app_assoc.
  - lia.
  - specialize (Hs p Hb). simpl in Hs. lia.
Qed.

Lemma sortKey_no_message w :
  isEmpty (userid (lastMessageInfo w)) = true -> sortKey w = 0.
Proof. unfold sortKey. now intros ->. Qed.

Lemma sortKey_timestamp w :
  isEmpty (userid (lastMessageInfo w)) = false ->
  0 <= datetime (lastMessageInfo w) < 2 ^ 63 ->
  sortKey w = datetime (lastMessageInfo w).
Proof.
  unfold sortKey, to_uint64. intros -> H. apply Z.mod_small. lia.
Qed.

Lemma to_uint64_negative z : - 2 ^ 63 <= z < 0 -> to_uint64 z = z + 2 ^ 64.
Proof.
  intros H. unfold to_uint64.
  replace z with ((z + 2 ^ 64) + (-1) * 2 ^ 64) at 1 by lia.
  rewrite Z.mod_add by lia. apply Z.mod_small. lia.
Qed.

Lemma sortKey_pre_epoch w :
  isEmpty (userid (lastMessageInfo w)) = false ->
  - 2 ^ 63 <= datetime (lastMessageInfo w) < 0 ->
  sortKey w = datetime (lastMessageInfo w) + 2 ^ 64.
Proof. unfold sortKey. intros -> H. now apply to_uint64_negative. Qed.

Lemma sortKey_upper w :
  isEmpty (userid (lastMessageInfo w)) = true \/
  0 <= datetime (lastMessageInfo w) < 2 ^ 63 ->
  sortKey w < 2 ^ 63.
Proof.
  unfold sortKey, to_uint64. intros [->|H]; [lia|].
  destruct (isEmpty _); [lia|]. rewrite Z.mod_small; lia.
Qed.

Lemma sortKey_lastActivityTimestamp w :
  sortKey w = lastActivityTimestamp w mod 2 ^ 64.
Proof.
  unfold sortKey, lastActivityTimestamp, to_uint64.
  now destruct (isEmpty (userid (lastMessageInfo w))).
Qed.

Lemma sortRoomsByLastMessage_layout st :
  NoDup (layout_ptrs (contentsLayout_ st)) ->
  contentsLayout_ (sortRoomsByLastMessage st)
  = map RoomWidget (map snd (collectTimes (widgets st) (contentsLayout_ st)))
    ++ List.filter isOther (contentsLayout_ st).
Proof.
  intros Hnd. unfold sortRoomsByLastMessage. simpl.
  destruct (collectTimes_sorted (widgets st) (contentsLayout_ st))
    as (_ & Hperm & _).
  apply (reposition_places _ [] (contentsLayout_ st)); assumption.
Qed.

(** C1 fails as stated: the rooms are ordered by the time converted to
    [uint64_t], not by the time.  In the sample roster with the last message
    of "a" dated one second before the epoch the sort puts "a" first, before
    "b" (at 30) and "c" (at 20): the timestamps do not descend. *)
Lemma sortRoomsByLastMessage_not_descending_by_timestamp :
  NoDup (layout_ptrs (contentsLayout_ preEpochRoster)) /\
  map (fun p => lastActivityTimestamp (widgets preEpochRoster p))
      (layout_ptrs (contentsLayout_ (sortRoomsByLastMessage preEpochRoster)))
  = [-1000; 30; 20; 0] /\
  ~ StronglySorted
      (fun p q => lastActivityTimestamp (widgets preEpochRoster q)
                  <= lastActivityTimestamp (widgets preEpochRoster p))
      (layout_ptrs (contentsLayout_ (sortRoomsByLastMessage preEpochRoster))).
Proof.
  split; [apply (bool_decide_unpack _); vm_compute; exact I|].
  split; [reflexivity|].
  change (layout_ptrs (contentsLayout_ (sortRoomsByLastMessage preEpochRoster)))
    with [1; 2; 3; 4]%positive.
  intros H. inversion H as [|? ? _ Hall]; subst.
  inversion Hall as [|? ? Hle _]; subst.
  vm_compute in Hle. now apply Hle.
Qed.

(** C1, amended: [sortRoomsByLastMessage] rearranges the rooms of the layout,
    no widget twice, by descending key, where the key of a room is its
    last-activity timestamp (0 when it has no message, the time of its last
    message in milliseconds otherwise) converted to [uint64_t]: the timestamp
    itself when it is not before the epoch, the timestamp plus 2^64 when it
    is.  Rooms with equal keys keep the order they had; a room with a larger
    key stands before one with a smaller key, so a room whose last message is
    not dated exactly at the epoch stands before every room without a
    message.  The rooms come first, what is not a room keeps its order
    behind them, and nothing but the layout and the pending flag changes. *)
Theorem sortRoomsByLastMessage_descending_by_key_and_stable (st : RoomList) :
  NoDup (layout_ptrs (contentsLayout_ st)) ->
  let st' := sortRoomsByLastMessage st in
  let key := fun p => sortKey (widgets st p) in
  let before := layout_ptrs (contentsLayout_ st) in
  let after := layout_ptrs (contentsLayout_ st') in
  Permutation after before /\
  StronglySorted (fun p q => key q <= key p) after /\
  (forall k, List.filter (fun p => key p =? k) after
             = List.filter (fun p => key p =? k) before) /\
  (forall p q, In p before -> In q before -> key q < key p ->
               precedes p q after) /\
  contentsLayout_ st'
  = map RoomWidget after ++ List.filter isOther (contentsLayout_ st) /\
  (forall p, isEmpty (userid (lastMessageInfo (widgets st p))) = true ->
             key p = 0) /\
  (forall p, isEmpty (userid (lastMessageInfo (widgets st p))) = false ->
             0 <= datetime (lastMessageInfo (widgets st p)) < 2 ^ 63 ->
             key p = datetime (lastMessageInfo (widgets st p))) /\
  (forall p, isEmpty (userid (lastMessageInfo (widgets st p))) = false ->
             - 2 ^ 63 <= datetime (lastMessageInfo (widgets st p)) < 0 ->
             key p = datetime (lastMessageInfo (widgets st p)) + 2 ^ 64) /\
  (forall p, key p = lastActivityTimestamp (widgets st p) mod 2 ^ 64) /\
  (forall p q, In p before -> In q before ->
               isEmpty (userid (lastMessageInfo (widgets st p))) = false ->
               - 2 ^ 63 <= datetime (lastMessageInfo (widgets st p)) < 2 ^ 63 ->
               datetime (lastMessageInfo (widgets st p)) <> 0 ->
               isEmpty (userid (lastMessageInfo (widgets st q))) = true ->
               precedes p q after) /\
  widgets st' = widgets st /\
  rooms_ st' = rooms_ st /\
  selectedRoom_ st' = selectedRoom_ st /\
  isSortPending_ st' = false /\
  trace st' = trace st.
Proof.
  intros Hnd. cbv zeta. rewrite (sortRoomsByLastMessage_layout st Hnd).
  rewrite layout_ptrs_app, layout_ptrs_rooms, layout_ptrs_others, app_nil_r.
  destruct (collectTimes_sorted (widgets st) (contentsLayout_ st))
    as (_ & Hperm & Hsorted & Hstable).
  assert (Hprec : forall p q,
             In p (layout_ptrs (contentsLayout_ st)) ->
             In q (layout_ptrs (contentsLayout_ st)) ->
             sortKey (widgets st q) < sortKey (widgets st p) ->
             precedes p q
               (map snd (collectTimes (widgets st) (contentsLayout_ st)))).
  { intros p q Hp Hq Hlt.
    apply (sorted_precedes (fun p => sortKey (widgets st p)));
      [assumption| | |assumption];
      (eapply Permutation_in; [symmetry; exact Hperm | assumption]). }
  split; [assumption|]. split; [assumption|]. split; [assumption|].
  split; [exact Hprec|]. split; [reflexivity|].
  split; [intros p; apply sortKey_no_message|].
  split; [intros p; apply sortKey_timestamp|].
  split; [intros p; apply sortKey_pre_epoch|].
  split; [intros p; apply sortKey_lastActivityTimestamp|].
  split; [|repeat split].
  intros p q Hp Hq Hmsg Hrange Hne Hnone. apply Hprec; [assumption..|].
  rewrite (sortKey_no_message _ Hnone).
  destruct (Z.lt_ge_cases (datetime (lastMessageInfo (widgets st p))) 0).
  - rewrite (sortKey_pre_epoch _ Hmsg); lia.
  - rewrite (sortKey_timestamp _ Hmsg); lia.
Qed.

Lemma sortRoomsByLastMessage_witness :
  NoDup (layout_ptrs (contentsLayout_ unsortedRoster)) /\
  StronglySorted
    (fun p q => sortKey (unsortedStore q) <= sortKey (unsortedStore p))
    (layout_ptrs (contentsLayout_ (sortRoomsByLastMessage unsortedRoster))).
Proof.
  assert (Hnd : NoDup (layout_ptrs (contentsLayout_ unsortedRoster))).
  { apply (bool_decide_unpack _). vm_compute. exact I. }
  split; [exact Hnd|].
  exact (proj1 (proj2
           (sortRoomsByLastMessage_descending_by_key_and_stable
              unsortedRoster Hnd))).
Defined.

Example sortRoomsByLastMessage_sample :
  contentsLayout_ (sortRoomsByLastMessage unsortedRoster)
  = [RoomWidget 2; RoomWidget 5; RoomWidget 3; RoomWidget 1; RoomWidget 4;
     OtherItem]%positive /\
  isSortPending_ (sortRoomsByLastMessage unsortedRoster) = false.
Proof. split; reflexivity. Qed.

(** ** The deferred sort *)

Lemma multimap_emplace_last k v m :
  Forall (fun e => k <= fst e) m -> multimap_emplace k v m = m ++ [(k, v)].
Proof.
  induction 1 as [|[k' v'] m Hk _ IH]; simpl; [reflexivity|].
  simpl in Hk. destruct (Z.ltb_spec k' k); [lia|]. now rewrite IH.
Qed.

Lemma descending_app_before (m : Times) e rest :
  descending (m ++ e :: rest) -> Forall (fun x => fst e <= fst x) m.
Proof.
  unfold descending. induction m as [|x m IH]; simpl; intros H; [constructor|].
  inversion H as [|? ? Hs Hall]; subst. constructor; [|now apply IH].
  rewrite List.Forall_forall in Hall. apply (Hall e).
  apply in_or_app. right. now left.
Qed.

(** Filing rooms that already stand by descending key keeps their order. *)
Lemma fold_emplace_sorted (h : Store) ps : forall acc,
  descending (acc ++ map (fun p => (sortKey (h p), p)) ps) ->
  fold_left (fun times p => multimap_emplace (sortKey (h p)) p times) ps acc
  = acc ++ map (fun p => (sortKey (h p), p)) ps.
Proof.
  induction ps as [|p ps IH]; intros acc Hd; simpl.
  - now rewrite app_nil_r.
  - simpl in Hd. rewrite multimap_emplace_last
      by apply (descending_app_before _ _ _ Hd).
    rewrite IH; rewrite <- app_assoc; [reflexivity | exact Hd].
Qed.

Lemma sortRoomsByLastMessage_NoDup st :
  NoDup (layout_ptrs (contentsLayout_ st)) ->
  NoDup (layout_ptrs (contentsLayout_ (sortRoomsByLastMessage st))).
Proof.
  intros Hnd. rewrite (sortRoomsByLastMessage_layout st Hnd).
  rewrite layout_ptrs_app, layout_ptrs_rooms, layout_ptrs_others, app_nil_r.
  destruct (collectTimes_sorted (widgets st) (contentsLayout_ st))
    as (_ & Hperm & _).
  eapply NoDup_Permutation_proper; [exact Hperm | exact Hnd].
Qed.

(** Sorting twice is sorting once. *)
Lemma sortRoomsByLastMessage_settles st :
  NoDup (layout_ptrs (contentsLayout_ st)) ->
  settled (sortRoomsByLastMessage st).
Proof.
  intros Hnd. unfold settled.
  pose proof (sortRoomsByLastMessage_NoDup st Hnd) as Hnd'.
  rewrite (sortRoomsByLastMessage_layout _ Hnd').
  rewrite (sortRoomsByLastMessage_layout st Hnd) at 2 3.
  destruct (collectTimes_sorted (widgets st) (contentsLayout_ st))
    as (Hent & _ & _ & _).
  set (sorted := map snd (collectTimes (widgets st) (contentsLayout_ st))) in *.
  assert (Hw : widgets (sortRoomsByLastMessage st) = widgets st) by reflexivity.
  rewrite Hw, (sortRoomsByLastMessage_layout st Hnd). fold sorted.
  assert (Hsame : collectTimes (widgets st)
                    (map RoomWidget sorted ++ List.filter isOther (contentsLayout_ st))
                  = collectTimes (widgets st) (contentsLayout_ st)).
  { unfold collectTimes at 1. rewrite collectTimes_fold.
    rewrite layout_ptrs_app, layout_ptrs_rooms, layout_ptrs_others, app_nil_r.
    rewrite (fold_emplace_sorted (widgets st) sorted []).
    - simpl. now rewrite Hent.
    - simpl. rewrite <- Hent. unfold collectTimes. rewrite collectTimes_fold.
      apply fold_emplace_descending. constructor. }
  rewrite Hsame. fold sorted. f_equal.
  rewrite List.filter_app.
  replace (List.filter isOther (map RoomWidget sorted)) with (@nil QLayoutItem).
  - simpl. clear. induction (contentsLayout_ st) as [|[q|] l IH]; simpl;
      [reflexivity | assumption | now rewrite IH].
  - clear. induction sorted as [|p ps IH]; simpl; [reflexivity | assumption].
Qed.

Lemma settled_layout st st' :
  contentsLayout_ st' = contentsLayout_ st -> widgets st' = widgets st ->
  settled st -> settled st'.
Proof.
  unfold settled, sortRoomsByLastMessage. simpl. now intros -> ->.
Qed.

Lemma quiet_sorted st :
  NoDup (layout_ptrs (contentsLayout_ st)) -> quiet (sortRoomsByLastMessage st).
Proof.
  intros Hnd. split; [now apply sortRoomsByLastMessage_NoDup|].
  intros _ _. now apply sortRoomsByLastMessage_settles.
Qed.

Lemma quiet_handle e st st' :
  quiet st -> handle e st = Ok st' -> quiet st'.
Proof.
  intros [Hnd Hq] He. destruct e as [|underMouse roomid info|]; simpl in He.
  - injection He as <-. unfold leaveEvent.
    destruct (isSortPending_ st) eqn:E.
    + split; [exact Hnd|]. simpl. congruence.
    + split; [exact Hnd|]. intros _. now apply Hq.
  - unfold updateRoomDescription in He.
    destruct (negb (roomExists roomid st)).
    + injection He as <-. split; [exact Hnd|]. simpl. intros Hp Ht.
      eapply settled_layout; [| |exact (Hq Hp Ht)]; reflexivity.
    + destruct (map_find roomid (rooms_ st)) as [[p|]|]; try discriminate.
      destruct underMouse; injection He as <-.
      * split; [exact Hnd|]. simpl. discriminate.
      * apply quiet_sorted. exact Hnd.
  - destruct (timers st) eqn:E; injection He as <-.
    + split; [exact Hnd|]. lia.
    + apply quiet_sorted. exact Hnd.
Qed.

Lemma quiet_run es : forall st st',
  quiet st -> run es st = Ok st' -> quiet st'.
Proof.
  unfold run. induction es as [|e es IH]; simpl; intros st st' Hq Hr.
  - now injection Hr as <-.
  - destruct (handle e st) as [st1|f] eqn:E; simpl in Hr; [|discriminate].
    eapply IH; [|exact Hr]. eapply quiet_handle; eassumption.
Qed.

(** C8: start with no timer outstanding and let the pointer leave, let
    descriptions arrive and let timers fire, in any order.  A timer that then
    fires while no sort is pending changes nothing: the state is as before,
    but for the timer being spent.  A timer that fires while a sort is
    pending does the sort: the rooms stand by descending key, equal keys in
    the order they had, and no sort is pending any more. *)
Theorem timer_fired_without_pending_sort_is_noop
    (st0 : RoomList) (es : list Input) (st : RoomList) :
  timers st0 = 0%nat ->
  NoDup (layout_ptrs (contentsLayout_ st0)) ->
  run es st0 = Ok st ->
  (0 < timers st)%nat ->
  (isSortPending_ st = false ->
   timeout st = set_timers (pred (timers st)) st) /\
  (isSortPending_ st = true ->
   let st' := timeout st in
   let key := fun p => sortKey (widgets st p) in
   isSortPending_ st' = false /\
   timers st' = pred (timers st) /\
   StronglySorted (fun p q => key q <= key p)
                  (layout_ptrs (contentsLayout_ st')) /\
   forall k, List.filter (fun p => key p =? k) (layout_ptrs (contentsLayout_ st'))
             = List.filter (fun p => key p =? k)
                           (layout_ptrs (contentsLayout_ st))).
Proof.
  intros Ht0 Hnd0 Hrun Ht.
  assert (Hq : quiet st).
  { eapply quiet_run; [|exact Hrun]. split; [exact Hnd0|]. lia. }
  destruct Hq as [Hnd Hq]. split.
  - intros Hp. specialize (Hq Hp Ht). unfold settled in Hq.
    unfold timeout, sortRoomsByLastMessage, set_layout in *. simpl in *.
    rewrite Hq, <- Hp. reflexivity.
  - intros Hp. cbv zeta. unfold timeout.
    split; [reflexivity|]. split; [reflexivity|].
    rewrite (sortRoomsByLastMessage_layout
               (set_timers (pred (timers st)) st) Hnd). simpl.
    rewrite layout_ptrs_app, layout_ptrs_rooms, layout_ptrs_others, app_nil_r.
    destruct (collectTimes_sorted (widgets st) (contentsLayout_ st))
      as (_ & _ & Hsorted & Hstable).
    split; assumption.
Qed.

Lemma timer_fired_witness :
  exists st,
    run (twoTimers ++ [TimerFires]) sampleRoster = Ok st /\
    timers st = 1%nat /\
    isSortPending_ st = false /\
    timeout st = set_timers 0 st.
Proof.
  eexists. split; [reflexivity|]. split; [reflexivity|]. split; [reflexivity|].
  refine (proj1 (timer_fired_without_pending_sort_is_noop
                   sampleRoster (twoTimers ++ [TimerFires]) _ _ _ _ _) _);
    try reflexivity.
  - apply (bool_decide_unpack _). vm_compute. exact I.
  - simpl. lia.
Defined.

Example deferred_sort_sample :
  exists st1 st2,
    run twoTimers sampleRoster = Ok st1 /\
    isSortPending_ st1 = true /\ timers st1 = 2%nat /\
    contentsLayout_ st1 = [RoomWidget 2; RoomWidget 3; RoomWidget 1; RoomWidget 4]%positive /\
    run [TimerFires] st1 = Ok st2 /\
    isSortPending_ st2 = false /\ timers st2 = 1%nat /\
    contentsLayout_ st2 = [RoomWidget 1; RoomWidget 2; RoomWidget 3; RoomWidget 4]%positive /\
    contentsLayout_ (timeout st2) = contentsLayout_ st2.
Proof.
  eexists. eexists. split; [reflexivity|]. repeat split.
Qed.

(** * More properties: the roster stays well formed *)

(** ** The order of the keys *)

Lemma ltb_trans a b c :
  String.ltb a b = true -> String.ltb b c = true -> String.ltb a c = true.
Proof.
  unfold String.ltb. intros H1 H2.
  destruct (String.compare a b) eqn:E1; try discriminate.
  destruct (String.compare b c) eqn:E2; try discriminate.
  apply OrderedTypeEx.String_as_OT.cmp_lt in E1, E2.
  pose proof (OrderedTypeEx.String_as_OT.lt_trans _ _ _ E1 E2) as H.
  apply OrderedTypeEx.String_as_OT.cmp_lt in H.
  unfold OrderedTypeEx.String_as_OT.cmp in H. now rewrite H.
Qed.

Lemma ltb_irrefl a : String.ltb a a = false.
Proof.
  unfold String.ltb. pose proof (String.compare_antisym a a) as H.
  destruct (String.compare a a); simpl in H; congruence.
Qed.

Lemma ltb_total a b :
  a <> b -> String.ltb a b = false -> String.ltb b a = true.
Proof.
  unfold String.ltb. intros Hne H.
  rewrite (String.compare_antisym b a).
  destruct (String.compare a b) eqn:E; simpl; try congruence.
  apply String.compare_eq_iff in E. contradiction.
Qed.

Lemma ltb_neq a b : String.ltb a b = true -> a <> b.
Proof. intros H ->. rewrite ltb_irrefl in H. discriminate. Qed.

(** ** The map: lookup after [emplace] and [erase] *)

Lemma roomExists_In k st : roomExists k st = true <-> In k (roomIds st).
Proof.
  unfold roomExists, roomIds. induction (rooms_ st) as [|[k' v] m IH]; simpl.
  - split; [discriminate | tauto].
  - destruct (String.eqb_spec k k') as [->|Hne].
    + split; [now left | reflexivity].
    + rewrite IH. split; [now right | intros [H|H]; congruence].
Qed.

Lemma map_find_absent k m : map_find k m = None <-> ~ In k (map fst m).
Proof.
  induction m as [|[k' v] m IH]; simpl; [tauto|].
  destruct (String.eqb_spec k k') as [->|Hne].
  - split; [discriminate | intros H; exfalso; apply H; now left].
  - rewrite IH. split; [intros H [E|E]; congruence | tauto].
Qed.

Lemma map_find_emplace k v m k' :
  map_find k m = None ->
  map_find k' (map_emplace k v m)
  = if String.eqb k' k then Some v else map_find k' m.
Proof.
  induction m as [|[k0 v0] m IH]; simpl.
  - reflexivity.
  - destruct (String.eqb_spec k k0) as [->|Hne]; [discriminate|].
    intros Habs. destruct (String.ltb k k0); simpl; [reflexivity|].
    rewrite (IH Habs).
    destruct (String.eqb_spec k' k0) as [->|Hne0]; [|reflexivity].
    destruct (String.eqb_spec k0 k); congruence.
Qed.

Lemma map_emplace_perm k v m :
  map_find k m = None -> Permutation (map_emplace k v m) ((k, v) :: m).
Proof.
  induction m as [|[k0 v0] m IH]; simpl; [reflexivity|].
  destruct (String.eqb_spec k k0) as [->|Hne]; [discriminate|].
  intros Habs. destruct (String.ltb k k0); [reflexivity|].
  etransitivity; [apply perm_skip, IH, Habs | apply perm_swap].
Qed.

Lemma map_emplace_keysAscending k v m :
  keysAscending m -> map_find k m = None -> keysAscending (map_emplace k v m).
Proof.
  unfold keysAscending. induction 1 as [|[k0 v0] m Hs IH Hall]; simpl.
  - intros _. repeat constructor.
  - destruct (String.eqb_spec k k0) as [->|Hne]; [discriminate|].
    intros Habs. destruct (String.ltb k k0) eqn:E.
    + constructor; [now constructor|].
      constructor; [exact E|].
      eapply List.Forall_impl; [|exact Hall]. simpl. intros e He.
      eapply ltb_trans; eassumption.
    + constructor; [now apply IH|].
      eapply Permutation_Forall; [symmetry; apply map_emplace_perm, Habs|].
      constructor; [|assumption]. simpl. apply ltb_total; congruence.
Qed.

Lemma map_ptrs_perm m m' :
  Permutation m m' -> Permutation (map_ptrs m) (map_ptrs m').
Proof.
  unfold map_ptrs. induction 1; simpl.
  - reflexivity.
  - now apply Permutation_app_head.
  - rewrite !app_assoc. apply Permutation_app_tail, Permutation_app_comm.
  - etransitivity; eassumption.
Qed.

Lemma map_erase_sublist k m : sublist (map_erase k m) m.
Proof.
  induction m as [|[k' v] m IH]; simpl; [constructor|].
  destruct (String.eqb k k'); [now constructor | now constructor].
Qed.

Lemma map_find_erase_other k k' m :
  k' <> k -> map_find k' (map_erase k m) = map_find k' m.
Proof.
  intros Hne. induction m as [|[k0 v0] m IH]; simpl; [reflexivity|].
  destruct (String.eqb_spec k k0) as [->|Hne0]; simpl.
  - destruct (String.eqb_spec k' k0); congruence.
  - now rewrite IH.
Qed.

Lemma map_find_erase_same k m :
  keysAscending m -> map_find k (map_erase k m) = None.
Proof.
  unfold keysAscending. induction 1 as [|[k0 v0] m Hs IH Hall]; simpl.
  - reflexivity.
  - destruct (String.eqb_spec k k0) as [->|Hne]; simpl.
    + apply map_find_absent. intros Hin. apply in_map_iff in Hin.
      destruct Hin as (e & He & Hin). rewrite List.Forall_forall in Hall.
      specialize (Hall e Hin). simpl in Hall. apply ltb_neq in Hall. congruence.
    + destruct (String.eqb_spec k k0); [congruence | exact IH].
Qed.

(** ** Sub-maps *)

Lemma sublist_In {A} (l1 l2 : list A) x : sublist l1 l2 -> In x l1 -> In x l2.
Proof.
  intros Hs Hin. apply list_elem_of_In. eapply elem_of_sublist; [|exact Hs].
  now apply list_elem_of_In.
Qed.

Lemma sublist_Forall {A} (P : A -> Prop) (l1 l2 : list A) :
  sublist l1 l2 -> Forall P l2 -> Forall P l1.
Proof.
  intros Hs Hall. rewrite List.Forall_forall in *. intros x Hx.
  apply Hall. eapply sublist_In; eassumption.
Qed.

Lemma sublist_StronglySorted {A} (R : A -> A -> Prop) (l1 l2 : list A) :
  sublist l1 l2 -> StronglySorted R l2 -> StronglySorted R l1.
Proof.
  induction 1 as [|x l1 l2 Hs IH|x l1 l2 Hs IH]; intros Hsorted.
  - constructor.
  - inversion Hsorted; subst. constructor; [now apply IH|].
    eapply sublist_Forall; eassumption.
  - inversion Hsorted; subst. now apply IH.
Qed.

Lemma map_ptrs_sublist m' m : sublist m' m -> sublist (map_ptrs m') (map_ptrs m).
Proof.
  unfold map_ptrs. induction 1 as [|[k [p|]] l1 l2 Hs IH|[k [p|]] l1 l2 Hs IH];
    simpl; try assumption; now constructor.
Qed.

Lemma owned_map_ptrs p m : owned p m = true <-> In p (map_ptrs m).
Proof.
  unfold owned, map_ptrs. rewrite existsb_exists, in_flat_map. split.
  - intros ([k [q|]] & Hin & Hq); simpl in Hq; [|discriminate].
    apply Pos.eqb_eq in Hq. subst q. exists (k, Some p). split; [assumption|].
    now left.
  - intros ([k [q|]] & Hin & Hq); simpl in Hq; [|contradiction].
    destruct Hq as [->|[]]. exists (k, Some p). split; [assumption|].
    apply Pos.eqb_refl.
Qed.

Lemma layout_ptrs_dropDestroyed old new l p :
  In p (layout_ptrs (dropDestroyed old new l)) <->
  In p (layout_ptrs l) /\ destroyed old new p = false.
Proof.
  rewrite !layout_ptrs_In. unfold dropDestroyed. rewrite filter_In.
  now rewrite negb_true_iff.
Qed.

Lemma layout_ptrs_filter_sublist f l :
  sublist (layout_ptrs (List.filter f l)) (layout_ptrs l).
Proof.
  induction l as [|[q|] l IH]; simpl; [constructor| |].
  - destruct (f (RoomWidget q)); simpl; now constructor.
  - destruct (f OtherItem); simpl; assumption.
Qed.

Lemma dropDestroyed_same old new l :
  (forall p, owned p old = true -> owned p new = true) ->
  dropDestroyed old new l = l.
Proof.
  intros Hkeep. unfold dropDestroyed.
  induction l as [|[q|] l IH]; simpl; [reflexivity| |f_equal; exact IH].
  replace (destroyed old new q) with false; [simpl; f_equal; exact IH|].
  unfold destroyed. destruct (owned q old) eqn:E; simpl; [|reflexivity].
  now rewrite (Hkeep q E).
Qed.

(** ** Keeping a state well formed *)

(** The rooms stay, the layout is rearranged, and the widgets of the roster
    keep their ids. *)
Lemma wellFormed_rearranged st st' :
  wellFormed st ->
  rooms_ st' = rooms_ st ->
  Permutation (layout_ptrs (contentsLayout_ st'))
              (layout_ptrs (contentsLayout_ st)) ->
  (forall k q, In (k, Some q) (rooms_ st) ->
               roomId (widgets st' q) = roomId (widgets st q)) ->
  wellFormed st'.
Proof.
  intros (Hk & Hn & Hm & Hl & Hsame & Hid) Hr Hp Hw.
  unfold wellFormed. rewrite Hr. repeat split; try assumption.
  - eapply NoDup_Permutation_proper; [exact Hp | exact Hl].
  - intros Hin. apply Hsame. eapply Permutation_in; eassumption.
  - intros Hin. eapply Permutation_in; [symmetry; exact Hp|]. now apply Hsame.
  - intros k q Hin. rewrite (Hw k q Hin). now apply Hid.
Qed.

(** Some entries go, and with them their widgets. *)
Lemma wellFormed_set_rooms st m' :
  wellFormed st -> sublist m' (rooms_ st) -> wellFormed (set_rooms m' st).
Proof.
  intros (Hk & Hn & Hm & Hl & Hsame & Hid) Hs.
  unfold wellFormed. simpl. repeat split.
  - eapply sublist_StronglySorted; eassumption.
  - eapply sublist_Forall; eassumption.
  - eapply sublist_NoDup; [exact Hm | now apply map_ptrs_sublist].
  - eapply sublist_NoDup; [exact Hl | apply layout_ptrs_filter_sublist].
  - rewrite layout_ptrs_dropDestroyed. intros [Hin Hd].
    apply Hsame, owned_map_ptrs in Hin. unfold destroyed in Hd.
    rewrite Hin in Hd. simpl in Hd. apply negb_false_iff in Hd.
    now apply owned_map_ptrs.
  - intros Hin. apply layout_ptrs_dropDestroyed.
    assert (Hold : In p (map_ptrs (rooms_ st))).
    { eapply sublist_In; [apply map_ptrs_sublist, Hs | exact Hin]. }
    split; [now apply Hsame|]. unfold destroyed.
    apply owned_map_ptrs in Hin. rewrite Hin. apply andb_false_r.
  - intros k p Hin. apply Hid. eapply sublist_In; eassumption.
Qed.

Lemma map_find_erase_perm k v m :
  map_find k m = Some v -> Permutation m ((k, v) :: map_erase k m).
Proof.
  induction m as [|[k0 v0] m IH]; simpl; [discriminate|].
  destruct (String.eqb_spec k k0) as [->|Hne].
  - intros [= ->]. reflexivity.
  - intros H. etransitivity; [apply perm_skip, IH, H | apply perm_swap].
Qed.

Lemma dropDestroyed_sublist old new l : sublist (dropDestroyed old new l) l.
Proof. apply filter_sublist. Qed.

Lemma wellFormed_firstRoom st :
  wellFormed st -> rooms_ st <> [] ->
  exists k p, firstRoom st = Ok (k, Some p) /\ In (k, Some p) (rooms_ st).
Proof.
  intros (_ & Hn & _) Hne. unfold firstRoom.
  destruct (rooms_ st) as [|[k [p|]] m]; [contradiction| |].
  - exists k, p. split; [reflexivity | now left].
  - inversion Hn; subst. simpl in *. congruence.
Qed.

(** X1: [removeRoom] in a well-formed state never has undefined behaviour
    (its [firstRoom] finds an item) and leaves a well-formed state: the id is
    gone from the roster and its widget from the layout, the other rooms
    exist as before and keep their order in the layout, and [selectedRoom_]
    is as it was, also when it names the removed room. *)
Theorem removeRoom_keeps_wellFormed
    (st : RoomList) (room_id : QString) (reset : bool) :
  wellFormed st ->
  exists st',
    removeRoom room_id reset st = Ok st' /\
    wellFormed st' /\
    roomExists room_id st' = false /\
    (forall k, k <> room_id -> roomExists k st' = roomExists k st) /\
    (forall p, map_find room_id (rooms_ st) = Some (Some p) ->
               ~ In (RoomWidget p) (contentsLayout_ st')) /\
    sublist (contentsLayout_ st') (contentsLayout_ st) /\
    selectedRoom_ st' = selectedRoom_ st.
Proof.
  intros Hwf.
  set (st1 := set_rooms (map_erase room_id (rooms_ st)) st).
  assert (Hwf1 : wellFormed st1).
  { apply wellFormed_set_rooms; [assumption | apply map_erase_sublist]. }
  assert (Hgone : roomExists room_id st1 = false).
  { unfold roomExists. simpl. rewrite map_find_erase_same; [reflexivity|].
    apply Hwf. }
  assert (Hother : forall k, k <> room_id -> roomExists k st1 = roomExists k st).
  { intros k Hk. unfold roomExists. simpl. now rewrite map_find_erase_other. }
  assert (Hwidget : forall p, map_find room_id (rooms_ st) = Some (Some p) ->
                              ~ In (RoomWidget p) (contentsLayout_ st1)).
  { intros p Hp Hin. apply layout_ptrs_In in Hin.
    destruct Hwf1 as (_ & _ & _ & _ & Hsame1 & _). apply Hsame1 in Hin.
    simpl in Hin. destruct Hwf as (_ & _ & Hnd & _).
    apply map_find_erase_perm, map_ptrs_perm in Hp.
    eapply NoDup_Permutation_proper in Hnd; [|symmetry; exact Hp].
    simpl in Hnd. apply NoDup_cons in Hnd as [Hnot _].
    apply Hnot, list_elem_of_In, Hin. }
  assert (Hsub : sublist (contentsLayout_ st1) (contentsLayout_ st))
    by apply dropDestroyed_sublist.
  unfold removeRoom. fold st1.
  destruct (bool_decide (rooms_ st1 = []) || negb reset) eqn:E.
  - exists st1. split; [reflexivity|]. split; [exact Hwf1|].
    split; [exact Hgone|]. split; [exact Hother|]. split; [exact Hwidget|].
    split; [exact Hsub | reflexivity].
  - apply orb_false_iff in E as [E _]. apply bool_decide_eq_false in E.
    destruct (wellFormed_firstRoom st1 Hwf1 E) as (k & p & -> & Hin). simpl.
    eexists. split; [reflexivity|]. split.
    { eapply wellFormed_rearranged; [exact Hwf1| | |]; simpl; try reflexivity.
      intros k' q _. unfold store_update. now destruct (Pos.eqb q p). }
    split; [exact Hgone|]. split; [exact Hother|]. split; [exact Hwidget|].
    split; [exact Hsub | reflexivity].
Qed.

Lemma sampleRoster_wellFormed : wellFormed sampleRoster.
Proof.
  unfold wellFormed. simpl.
  split; [|split; [|split; [|split; [|split]]]].
  - unfold keysAscending. repeat constructor.
  - unfold noneNull. repeat (constructor; [discriminate|]). constructor.
  - apply (bool_decide_unpack _). vm_compute. exact I.
  - apply (bool_decide_unpack _). vm_compute. exact I.
  - intros p. tauto.
  - intros k p H.
    repeat (destruct H as [H|H]; [injection H as <- <-; reflexivity|]).
    destruct H.
Qed.

Lemma removeRoom_wellFormed_witness :
  exists st',
    removeRoom "b" true sampleRoster = Ok st' /\
    wellFormed st' /\
    roomExists "b" st' = false.
Proof.
  destruct (removeRoom_keeps_wellFormed sampleRoster "b" true
              sampleRoster_wellFormed) as (st' & Hr & Hwf' & Hgone & _).
  exists st'. split; [exact Hr|]. split; [exact Hwf' | exact Hgone].
Defined.

(** X2: [cleanupInvites] in a well-formed state leaves a well-formed state:
    the widgets of the invitations it drops leave the layout with them, the
    others keep their order, and a joined room is never dropped. *)
Theorem cleanupInvites_keeps_wellFormed
    (invites : gmap QString bool) (st : RoomList) :
  wellFormed st ->
  let st' := cleanupInvites invites st in
  wellFormed st' /\
  sublist (contentsLayout_ st') (contentsLayout_ st) /\
  (forall k p, In (k, Some p) (rooms_ st) ->
               isInvite (widgets st p) = false ->
               roomExists k st' = true /\ In (RoomWidget p) (contentsLayout_ st')).
Proof.
  intros Hwf. cbv zeta. unfold cleanupInvites.
  case_bool_decide as Hs.
  - split; [exact Hwf|]. split; [reflexivity|].
    intros k p Hin _. split.
    + apply roomExists_In. unfold roomIds. apply in_map_iff.
      now exists (k, Some p).
    + apply layout_ptrs_In. destruct Hwf as (_ & _ & _ & _ & Hsame & _).
      apply Hsame. apply owned_map_ptrs. eapply owned_In, Hin.
  - assert (Hwf' : wellFormed
                     (set_rooms (erase_if (staleInvite invites (widgets st)) (rooms_ st)) st)).
    { apply wellFormed_set_rooms; [exact Hwf | apply filter_sublist]. }
    split; [exact Hwf'|]. split; [apply dropDestroyed_sublist|].
    intros k p Hin Hjoined.
    assert (Hkept : In (k, Some p)
                       (erase_if (staleInvite invites (widgets st)) (rooms_ st))).
    { unfold erase_if. apply filter_In. split; [exact Hin|].
      unfold staleInvite. simpl. now rewrite Hjoined. }
    split.
    + apply roomExists_In. unfold roomIds. simpl. apply in_map_iff.
      now exists (k, Some p).
    + apply layout_ptrs_In. destruct Hwf' as (_ & _ & _ & _ & Hsame & _).
      apply Hsame. simpl. apply owned_map_ptrs. eapply owned_In, Hkept.
Qed.

Lemma cleanupInvites_wellFormed_witness :
  wellFormed (cleanupInvites (<["x" := true]> ∅) sampleRoster) /\
  roomExists "a" (cleanupInvites (<["x" := true]> ∅) sampleRoster) = true.
Proof.
  destruct (cleanupInvites_keeps_wellFormed (<["x" := true]> ∅) sampleRoster
              sampleRoster_wellFormed) as (Hwf & _ & Hkeep).
  split; [exact Hwf|].
  apply (Hkeep "a"%string 1%positive); [now left | reflexivity].
Defined.

(** ** Adding a room *)

Lemma fold_max_ge (l : list positive) p :
  In p l -> (p <= fold_right Pos.max 1 l)%positive.
Proof.
  induction l as [|q l IH]; simpl; [tauto|].
  intros [->|Hin]; [lia|]. specialize (IH Hin). lia.
Qed.

Lemma allocate_fresh st :
  ~ In (allocate st) (map_ptrs (rooms_ st)) /\
  ~ In (allocate st) (layout_ptrs (contentsLayout_ st)).
Proof.
  unfold allocate.
  split; intros Hin;
    (assert (Hall : In (Pos.succ (fold_right Pos.max 1%positive
                          (map_ptrs (rooms_ st) ++ layout_ptrs (contentsLayout_ st))))
                       (map_ptrs (rooms_ st) ++ layout_ptrs (contentsLayout_ st)))
       by (apply in_or_app; auto);
     apply fold_max_ge in Hall; lia).
Qed.

Lemma layout_ptrs_insertWidget i p l :
  Permutation (layout_ptrs (insertWidget i p l)) (p :: layout_ptrs l).
Proof.
  unfold insertWidget. destruct ((i <? 0) || (count l <? i)).
  - rewrite layout_ptrs_app. simpl. symmetry. apply Permutation_cons_append.
  - rewrite layout_ptrs_app. simpl. symmetry.
    etransitivity; [|apply Permutation_middle].
    rewrite <- layout_ptrs_app, take_drop. reflexivity.
Qed.

Lemma insertWidget_before_last p (front : Layout) last :
  insertWidget (count (front ++ [last]) - 1) p (front ++ [last])
  = front ++ [RoomWidget p; last].
Proof.
  replace (count (front ++ [last]) - 1) with (count front)
    by (unfold count; rewrite length_app; simpl; lia).
  apply insertWidget_after.
Qed.

Lemma wellFormed_fresh_widget st p f :
  wellFormed st -> ~ In p (map_ptrs (rooms_ st)) -> wellFormed (on_widget p f st).
Proof.
  intros Hwf Hp. eapply wellFormed_rearranged; [exact Hwf| | |]; try reflexivity.
  intros k q Hin. simpl. rewrite store_update_other; [reflexivity|].
  intros ->. apply Hp. apply owned_map_ptrs. eapply owned_In, Hin.
Qed.

Lemma roomId_withAvatar cache url w :
  roomId (withAvatar cache url w) = roomId w.
Proof.
  unfold withAvatar. destruct (isEmpty url); [reflexivity|].
  now destruct (isEmpty (cache url)).
Qed.

(** [updateAvatar] for a room of the roster. *)
Lemma updateAvatar_present cache room_id url st p :
  map_find room_id (rooms_ st) = Some (Some p) ->
  exists st',
    updateAvatar cache room_id url st = Ok st' /\
    rooms_ st' = rooms_ st /\
    contentsLayout_ st' = contentsLayout_ st /\
    selectedRoom_ st' = selectedRoom_ st /\
    isSortPending_ st' = isSortPending_ st /\
    timers st' = timers st /\
    trace st' = trace st ++ avatarEvents cache room_id url /\
    widgets st' p = withAvatar cache url (widgets st p) /\
    (forall q, q <> p -> widgets st' q = widgets st q).
Proof.
  intros Hp. unfold updateAvatar, avatarEvents, withAvatar.
  destruct (isEmpty url).
  { exists st. rewrite app_nil_r. repeat split. }
  destruct (isEmpty (cache url)).
  { eexists. split; [reflexivity|]. repeat split. }
  unfold updateRoomAvatar, roomExists. rewrite Hp. simpl.
  eexists. split; [reflexivity|]. simpl.
  repeat split; [apply store_update_same|].
  intros q Hq. now apply store_update_other.
Qed.

Lemma emplace_insertWidget_wellFormed room_id p st :
  wellFormed st ->
  roomExists room_id st = false ->
  ~ In p (map_ptrs (rooms_ st)) ->
  ~ In p (layout_ptrs (contentsLayout_ st)) ->
  roomId (widgets st p) = room_id ->
  contentsLayout_ (set_rooms (map_emplace room_id (Some p) (rooms_ st)) st)
  = contentsLayout_ st /\
  wellFormed
    (set_layout
       (insertWidget (count (contentsLayout_ st) - 1) p (contentsLayout_ st))
       (set_rooms (map_emplace room_id (Some p) (rooms_ st)) st)).
Proof.
  intros (Hk & Hn & Hm & Hl & Hsame & Hid) Hex Hpm Hpl Hpid.
  assert (Habs : map_find room_id (rooms_ st) = None).
  { unfold roomExists in Hex. now destruct (map_find room_id (rooms_ st)). }
  pose proof (map_ptrs_perm _ _ (map_emplace_perm room_id (Some p) _ Habs))
    as Hperm. simpl in Hperm.
  assert (Hdrop : dropDestroyed (rooms_ st)
                    (map_emplace room_id (Some p) (rooms_ st)) (contentsLayout_ st)
                  = contentsLayout_ st).
  { apply dropDestroyed_same. intros q Hq. apply owned_map_ptrs.
    eapply Permutation_in; [symmetry; exact Hperm|]. right.
    now apply owned_map_ptrs. }
  split; [exact Hdrop|].
  unfold wellFormed. simpl.
  split; [|split; [|split; [|split; [|split]]]].
  - now apply map_emplace_keysAscending.
  - now apply map_emplace_noneNull.
  - eapply NoDup_Permutation_proper; [exact Hperm|].
    apply NoDup_cons. split; [now rewrite list_elem_of_In | exact Hm].
  - eapply NoDup_Permutation_proper; [apply layout_ptrs_insertWidget|].
    apply NoDup_cons. split; [now rewrite list_elem_of_In | exact Hl].
  - intros q. split; intros Hin.
    + eapply Permutation_in; [symmetry; exact Hperm|].
      eapply Permutation_in in Hin; [|apply layout_ptrs_insertWidget].
      destruct Hin as [->|Hin]; [now left | right; now apply Hsame].
    + eapply Permutation_in; [symmetry; apply layout_ptrs_insertWidget|].
      eapply Permutation_in in Hin; [|exact Hperm].
      destruct Hin as [->|Hin]; [now left | right; now apply Hsame].
  - intros k q Hin.
    eapply Permutation_in in Hin; [|apply map_emplace_perm, Habs].
    destruct Hin as [[= <- <-]|Hin]; [exact Hpid | now apply Hid].
Qed.

Lemma insertNewItem_places cache url room_id p avatar st :
  (forall s, avatar s = updateAvatar cache room_id url s) ->
  wellFormed st ->
  roomExists room_id st = false ->
  ~ In p (map_ptrs (rooms_ st)) ->
  ~ In p (layout_ptrs (contentsLayout_ st)) ->
  roomId (widgets st p) = room_id ->
  exists st',
    insertNewItem room_id p avatar st = Ok st' /\
    wellFormed st' /\
    rooms_ st' = map_emplace room_id (Some p) (rooms_ st) /\
    contentsLayout_ st'
    = insertWidget (count (contentsLayout_ st) - 1) p (contentsLayout_ st) /\
    widgets st' p = withAvatar cache url (widgets st p) /\
    (forall q, q <> p -> widgets st' q = widgets st q) /\
    selectedRoom_ st' = selectedRoom_ st /\
    isSortPending_ st' = isSortPending_ st /\
    timers st' = timers st /\
    trace st' = trace st ++ avatarEvents cache room_id url.
Proof.
  intros Hav Hwf Hex Hpm Hpl Hpid.
  destruct (emplace_insertWidget_wellFormed room_id p st Hwf Hex Hpm Hpl Hpid)
    as [Hl1 Hwf1].
  assert (Habs : map_find room_id (rooms_ st) = None).
  { unfold roomExists in Hex. now destruct (map_find room_id (rooms_ st)). }
  set (st1 := set_rooms (map_emplace room_id (Some p) (rooms_ st)) st) in *.
  destruct (updateAvatar_present cache room_id url st1 p)
    as (st2 & E & R & L & S & P & T & Tr & W & Wo).
  { simpl. rewrite map_find_emplace by assumption. now rewrite String.eqb_refl. }
  unfold insertNewItem. rewrite Hex. fold st1. rewrite Hav, E. simpl.
  rewrite L, Hl1.
  eexists. split; [reflexivity|]. simpl.
  split; [|repeat split; assumption].
  eapply wellFormed_rearranged; [exact Hwf1 | exact R | reflexivity |].
  intros k q _. simpl. destruct (Pos.eq_dec q p) as [->|Hne].
  - rewrite W. apply roomId_withAvatar.
  - now rewrite Wo.
Qed.

Lemma insertNewItem_taken cache url room_id p avatar st :
  (forall s, avatar s = updateAvatar cache room_id url s) ->
  noneNull (rooms_ st) ->
  roomExists room_id st = true ->
  insertNewItem room_id p avatar st = Undefined UseAfterFree.
Proof.
  intros Hav Hn Hex. unfold insertNewItem. rewrite Hex, Hav.
  assert (Hfind : exists q,
            map_find room_id
              (rooms_ (set_rooms (map_emplace room_id (Some p) (rooms_ st)) st))
            = Some (Some q)).
  { simpl. unfold roomExists in Hex. unfold noneNull in Hn. clear Hav.
    induction (rooms_ st) as [|[k v] m IH]; simpl in *; [discriminate|].
    inversion Hn as [|? ? Hv Hm]; subst. simpl in Hv.
    destruct (String.eqb_spec room_id k) as [->|Hne].
    - simpl. rewrite String.eqb_refl. destruct v as [q|]; [|contradiction].
      now exists q.
    - destruct (String.ltb room_id k); simpl.
      + rewrite String.eqb_refl. now exists p.
      + destruct (String.eqb_spec room_id k); [contradiction|]. now apply IH. }
  destruct Hfind as (q & Hq).
  destruct (updateAvatar_present cache room_id url _ q Hq) as (st2 & -> & _).
  reflexivity.
Qed.

Lemma addRoom_avatar cache room_id info s :
  (if negb (isEmpty (avatar_url info))
   then updateAvatar cache room_id (avatar_url info) s else Ok s)
  = updateAvatar cache room_id (avatar_url info) s.
Proof. unfold updateAvatar. now destruct (isEmpty (avatar_url info)). Qed.

Lemma add_new_room cache
    (add : QString -> RoomInfo -> RoomList -> result RoomList)
    (st : RoomList) (room_id : QString) (info : RoomInfo) :
  add = addRoom cache \/ add = addInvitedRoom cache ->
  wellFormed st ->
  roomExists room_id st = false ->
  exists st',
    add room_id info st = Ok st' /\
    wellFormed st' /\
    map_find room_id (rooms_ st') = Some (Some (allocate st)) /\
    (forall k, k <> room_id ->
               map_find k (rooms_ st') = map_find k (rooms_ st)) /\
    widgets st' (allocate st)
    = withAvatar cache (avatar_url info) (newItem room_id info) /\
    (forall q, q <> allocate st -> widgets st' q = widgets st q) /\
    (contentsLayout_ st = [] ->
     contentsLayout_ st' = [RoomWidget (allocate st)]) /\
    (forall front last,
       contentsLayout_ st = front ++ [last] ->
       contentsLayout_ st' = front ++ [RoomWidget (allocate st); last]) /\
    selectedRoom_ st' = selectedRoom_ st /\
    trace st' = trace st ++ avatarEvents cache room_id (avatar_url info).
Proof.
  intros Hadd Hwf Hex. destruct (allocate_fresh st) as [Hfm Hfl].
  - assert (Habs : map_find room_id (rooms_ st) = None).
    { unfold roomExists in Hex. now destruct (map_find room_id (rooms_ st)). }
    set (p := allocate st) in *.
    assert (Hgen : forall avatar st2,
      (forall s, avatar s = updateAvatar cache room_id (avatar_url info) s) ->
      wellFormed st2 -> rooms_ st2 = rooms_ st ->
      contentsLayout_ st2 = contentsLayout_ st ->
      selectedRoom_ st2 = selectedRoom_ st -> trace st2 = trace st ->
      widgets st2 p = newItem room_id info ->
      (forall q, q <> p -> widgets st2 q = widgets st q) ->
      exists st',
        insertNewItem room_id p avatar st2 = Ok st' /\
        wellFormed st' /\
        map_find room_id (rooms_ st') = Some (Some p) /\
        (forall k, k <> room_id ->
                   map_find k (rooms_ st') = map_find k (rooms_ st)) /\
        widgets st' p
        = withAvatar cache (avatar_url info) (newItem room_id info) /\
        (forall q, q <> p -> widgets st' q = widgets st q) /\
        (contentsLayout_ st = [] -> contentsLayout_ st' = [RoomWidget p]) /\
        (forall front last,
           contentsLayout_ st = front ++ [last] ->
           contentsLayout_ st' = front ++ [RoomWidget p; last]) /\
        selectedRoom_ st' = selectedRoom_ st /\
        trace st' = trace st ++ avatarEvents cache room_id (avatar_url info)).
    { intros avatar st2 Hav Hwf2 Hr Hl Hs Ht Hw Hwo.
      destruct (insertNewItem_places cache (avatar_url info) room_id p avatar
                  st2 Hav Hwf2)
        as (st' & E & Hwf' & Hr' & Hl' & Hw' & Hwo' & Hs' & _ & _ & Ht').
      - unfold roomExists. now rewrite Hr, Habs.
      - now rewrite Hr.
      - now rewrite Hl.
      - now rewrite Hw.
      - exists st'. split; [exact E|]. split; [exact Hwf'|].
        rewrite Hr', Hl', Hw', Hs', Ht', Hr, Hl, Hw, Ht.
        split; [|split; [|split; [|split; [|split; [|split; [|split]]]]]];
          try assumption; try reflexivity.
        + rewrite map_find_emplace by assumption. now rewrite String.eqb_refl.
        + intros k Hk. rewrite map_find_emplace by assumption.
          destruct (String.eqb_spec k room_id); [contradiction | reflexivity].
        + intros q Hq. rewrite Hwo' by assumption. now apply Hwo.
        + intros ->. reflexivity.
        + intros front last ->. apply insertWidget_before_last. }
    destruct Hadd as [->| ->]; unfold addRoom, addInvitedRoom, set_widget;
      fold p; apply Hgen; try reflexivity.
    + intros s. apply addRoom_avatar.
    + now repeat apply wellFormed_fresh_widget.
    + simpl. now rewrite !store_update_same.
    + intros q Hq. simpl. now rewrite !store_update_other.
    + now apply wellFormed_fresh_widget.
    + simpl. now rewrite store_update_same.
    + intros q Hq. simpl. now rewrite store_update_other.
Qed.

(** X3: [addRoom] and [addInvitedRoom].  For an id that is taken, [emplace]
    stores nothing and the new widget is used after its deletion.  For a new
    id, in a well-formed state, the room is added under a new widget built
    from [info]; the other rooms and widgets are untouched, the state stays
    well formed, nothing is selected, and the widget goes to position
    [count() - 1]: in front of the last item of the layout, not behind it,
    and alone into an empty layout.  Between [emplace] and [insertWidget]
    the avatar is looked after: with an empty url nothing is signalled and
    the widget has no avatar; with a url that is not cached the thumbnail is
    requested and the widget has no avatar yet; with a cached image the
    widget gets it and [roomAvatarChanged] is emitted. *)
Theorem addRoom_places_new_room_before_last
    (cache : QString -> QByteArray)
    (add : QString -> RoomInfo -> RoomList -> result RoomList)
    (st : RoomList) (room_id : QString) (info : RoomInfo) :
  add = addRoom cache \/ add = addInvitedRoom cache ->
  wellFormed st ->
  (roomExists room_id st = true ->
   add room_id info st = Undefined UseAfterFree) /\
  (roomExists room_id st = false ->
   exists st',
     add room_id info st = Ok st' /\
     wellFormed st' /\
     map_find room_id (rooms_ st') = Some (Some (allocate st)) /\
     (forall k, k <> room_id ->
                map_find k (rooms_ st') = map_find k (rooms_ st)) /\
     (forall q, q <> allocate st -> widgets st' q = widgets st q) /\
     (contentsLayout_ st = [] ->
      contentsLayout_ st' = [RoomWidget (allocate st)]) /\
     (forall front last,
        contentsLayout_ st = front ++ [last] ->
        contentsLayout_ st' = front ++ [RoomWidget (allocate st); last]) /\
     selectedRoom_ st' = selectedRoom_ st /\
     (isEmpty (avatar_url info) = true ->
      widgets st' (allocate st) = newItem room_id info /\
      trace st' = trace st) /\
     (isEmpty (avatar_url info) = false ->
      isEmpty (cache (avatar_url info)) = true ->
      widgets st' (allocate st) = newItem room_id info /\
      trace st' = trace st ++ [RequestThumbnail room_id (avatar_url info)]) /\
     (isEmpty (avatar_url info) = false ->
      isEmpty (cache (avatar_url info)) = false ->
      widgets st' (allocate st)
      = setAvatar (cache (avatar_url info)) (newItem room_id info) /\
      trace st'
      = trace st ++ [SigRoomAvatarChanged room_id (cache (avatar_url info))])).
Proof.
  intros Hadd Hwf. split.
  - intros Hex. destruct Hadd as [->| ->]; unfold addRoom, addInvitedRoom;
      eapply insertNewItem_taken; try exact Hex;
      try apply Hwf; try (intros s; first [apply addRoom_avatar | reflexivity]).
  - intros Hex.
    destruct (add_new_room cache add st room_id info Hadd Hwf Hex)
      as (st' & E & Hwf' & Hfind & Hold & Hw & Hwo & Hl0 & Hl1 & Hs & Ht).
    exists st'. split; [exact E|]. split; [exact Hwf'|]. split; [exact Hfind|].
    split; [exact Hold|]. split; [exact Hwo|]. split; [exact Hl0|].
    split; [exact Hl1|]. split; [exact Hs|].
    rewrite Hw, Ht. unfold withAvatar, avatarEvents.
    split; [|split].
    + intros ->. now rewrite app_nil_r.
    + intros -> ->. split; reflexivity.
    + intros -> ->. split; reflexivity.
Qed.

Lemma addRoom_witness :
  exists st',
    addRoom sampleCache "bb"
      (mkRoomInfo "Bees" "mxc://bees" false noMessage) sampleRoster
    = Ok st' /\
    wellFormed st' /\
    contentsLayout_ st'
    = [RoomWidget 2; RoomWidget 3; RoomWidget 1; RoomWidget 5; RoomWidget 4]%positive /\
    trace st' = [SigRoomAvatarChanged "bb" "PNG"].
Proof.
  destruct (addRoom_places_new_room_before_last sampleCache
              (addRoom sampleCache) sampleRoster "bb"
              (mkRoomInfo "Bees" "mxc://bees" false noMessage)
              (or_introl eq_refl) sampleRoster_wellFormed) as [_ H].
  destruct (H eq_refl) as (st' & E & Hwf & _ & _ & _ & _ & Hl & _ & _ & _ & Ha).
  exists st'. split; [exact E|]. split; [exact Hwf|].
  split; [|exact (proj2 (Ha eq_refl eq_refl))].
  exact (Hl [RoomWidget 2; RoomWidget 3; RoomWidget 1]%positive
            (RoomWidget 4%positive) eq_refl).
Defined.

(** ** Operations that keep the rooms *)

Lemma sameRooms_refl st : sameRooms st st.
Proof. split; [reflexivity|]. split; [reflexivity | intros p; reflexivity]. Qed.

Lemma sameRooms_trans st1 st2 st3 :
  sameRooms st1 st2 -> sameRooms st2 st3 -> sameRooms st1 st3.
Proof.
  intros (R1 & P1 & W1) (R2 & P2 & W2). split; [congruence|].
  split; [etransitivity; eassumption|].
  intros p. now rewrite W2, W1.
Qed.

Lemma sameRooms_wellFormed st st' :
  wellFormed st -> sameRooms st st' -> wellFormed st'.
Proof.
  intros Hwf (R & P & W). eapply wellFormed_rearranged; eauto.
Qed.

Lemma sameRooms_on_widget p f st :
  (forall w, roomId (f w) = roomId w) -> sameRooms st (on_widget p f st).
Proof.
  intros Hf. split; [reflexivity|]. split; [reflexivity|].
  intros q. simpl. unfold store_update. destruct (Pos.eqb q p); auto.
Qed.

Lemma sameRooms_frame st st' :
  rooms_ st' = rooms_ st -> contentsLayout_ st' = contentsLayout_ st ->
  (forall q, roomId (widgets st' q) = roomId (widgets st q)) ->
  sameRooms st st'.
Proof. intros R L W. split; [exact R|]. split; [now rewrite L | exact W]. Qed.

Lemma sameRooms_emit e st : sameRooms st (emit e st).
Proof. apply sameRooms_frame; first [reflexivity | intros q; reflexivity]. Qed.

Lemma highlightSelectedRoom_sameRooms room_id st :
  sameRooms st (highlightSelectedRoom room_id st).
Proof.
  apply sameRooms_frame.
  - destruct (roomExists room_id st) eqn:E.
    + now apply highlightSelectedRoom_known.
    + unfold highlightSelectedRoom.
      replace (roomExists room_id (emit (SigRoomChanged room_id) st)) with false.
      reflexivity.
  - destruct (roomExists room_id st) eqn:E.
    + now apply highlightSelectedRoom_known.
    + unfold highlightSelectedRoom.
      replace (roomExists room_id (emit (SigRoomChanged room_id) st)) with false.
      reflexivity.
  - intros q. destruct (highlightSelectedRoom_widgets room_id st q) as [b ->].
    reflexivity.
Qed.

Lemma removeFilter_sameRooms st : sameRooms st (removeFilter st).
Proof.
  unfold removeFilter.
  match goal with |- sameRooms _ (fold_left ?f ?l ?s) =>
    assert (Hf : frame (fold_left f l s) = frame s)
  end.
  { apply fold_left_frame. intros s [q|]; reflexivity. }
  unfold frame in Hf. injection Hf as H1 H2 _ _ _ _.
  apply sameRooms_frame; [assumption..|].
  intros q. rewrite removeFilter_widgets.
  now destruct (inLayout q (contentsLayout_ st)).
Qed.

Lemma selectFirstVisibleRoom_sameRooms st :
  sameRooms st (selectFirstVisibleRoom st).
Proof.
  unfold selectFirstVisibleRoom.
  destruct (firstVisible (widgets st) (contentsLayout_ st));
    [apply highlightSelectedRoom_sameRooms | apply sameRooms_refl].
Qed.

Lemma applyFilter_sameRooms (filter : gmap QString bool) st :
  sameRooms st (applyFilter filter st).
Proof.
  unfold applyFilter.
  set (loop := fold_left _ (contentsLayout_ st) st).
  assert (Hloop : sameRooms st loop).
  { pose proof (applyFilter_loop_frame filter (contentsLayout_ st) st) as Hf.
    unfold frame in Hf. injection Hf as H1 H2 _ _ _ _.
    apply sameRooms_frame; [assumption..|].
    intros q. unfold loop. rewrite applyFilter_loop_widgets.
    now destruct (inLayout q (contentsLayout_ st)). }
  destruct (negb (isEmpty (selectedRoom_ loop)) && contains filter (selectedRoom_ loop));
    [exact Hloop|].
  eapply sameRooms_trans; [exact Hloop | apply selectFirstVisibleRoom_sameRooms].
Qed.

Lemma sortRoomsByLastMessage_sameRooms st :
  NoDup (layout_ptrs (contentsLayout_ st)) ->
  sameRooms st (sortRoomsByLastMessage st).
Proof.
  intros Hnd. split; [reflexivity|]. split; [|intros q; reflexivity].
  rewrite (sortRoomsByLastMessage_layout st Hnd).
  rewrite layout_ptrs_app, layout_ptrs_rooms, layout_ptrs_others, app_nil_r.
  apply collectTimes_sorted.
Qed.

Lemma wellFormed_find st k :
  wellFormed st -> roomExists k st = true ->
  exists p, map_find k (rooms_ st) = Some (Some p).
Proof.
  intros (_ & Hn & _) Hex. unfold roomExists in Hex.
  destruct (map_find k (rooms_ st)) as [[p|]|] eqn:E; try discriminate.
  - now exists p.
  - exfalso. clear Hex. unfold noneNull in Hn.
    induction (rooms_ st) as [|[k' v] m IH]; simpl in E; [discriminate|].
    inversion Hn; subst. destruct (String.eqb k k'); [|now apply IH].
    injection E as ->. simpl in *. congruence.
Qed.

Lemma updateUnreadMessageCount_sameRooms st roomid count :
  wellFormed st ->
  match updateUnreadMessageCount roomid count st with
  | Ok st' => sameRooms st st'
  | Undefined f => f = SignedOverflow /\ roomExists roomid st = true
  end.
Proof.
  intros Hwf. unfold updateUnreadMessageCount.
  destruct (roomExists roomid st) eqn:E; simpl.
  - destruct (wellFormed_find st roomid Hwf E) as [p ->].
    rewrite calculateUnreadMessageCount_total.
    destruct (runningTotalsFit _ _); [|now split].
    apply sameRooms_frame; try reflexivity.
    intros q. simpl. unfold store_update. now destruct (Pos.eqb q p).
  - apply sameRooms_emit.
Qed.

(** Setting one count, in a roster whose counts are not negative, to a count
    that is not negative: no count is negative then, and the sum has grown
    by the new count at most. *)
Lemma counts_after_update (h : Store) p count (l : list ptr) :
  NoDup l -> 0 <= count ->
  Forall (fun c => 0 <= c) (map (fun q => unreadMessageCount (h q)) l) ->
  Forall (fun c => 0 <= c)
    (map (fun q => unreadMessageCount
                     (store_update p (item_updateUnreadMessageCount count) h q))
         l) /\
  fold_right Z.add 0
    (map (fun q => unreadMessageCount
                     (store_update p (item_updateUnreadMessageCount count) h q))
         l)
  <= fold_right Z.add 0 (map (fun q => unreadMessageCount (h q)) l) + count.
Proof.
  intros Hnd Hc. induction l as [|q l IH]; simpl; intros Hall.
  - split; [constructor | lia].
  - apply NoDup_cons in Hnd as [Hq Hnd].
    inversion Hall as [|? ? Hq0 Hrest]; subst.
    destruct (IH Hnd Hrest) as [IH1 IH2].
    destruct (Pos.eq_dec q p) as [->|Hne].
    + rewrite store_update_same. simpl.
      split; [now constructor|].
      assert (Hsame : map (fun q => unreadMessageCount
                             (store_update p
                                (item_updateUnreadMessageCount count) h q)) l
                      = map (fun q => unreadMessageCount (h q)) l).
      { apply map_ext_in. intros r Hr. rewrite store_update_other; [reflexivity|].
        intros ->. apply Hq. now apply list_elem_of_In. }
      rewrite Hsame. lia.
    + rewrite store_update_other by assumption.
      split; [now constructor | lia].
Qed.

Lemma updateRoomDescription_sameRooms st underMouse roomid info :
  wellFormed st ->
  exists st',
    updateRoomDescription underMouse roomid info st = Ok st' /\ sameRooms st st'.
Proof.
  intros Hwf. unfold updateRoomDescription.
  destruct (roomExists roomid st) eqn:E; simpl.
  - destruct (wellFormed_find st roomid Hwf E) as [p ->].
    assert (H1 : sameRooms st (on_widget p (setDescriptionMessage info) st))
      by now apply sameRooms_on_widget.
    destruct underMouse; eexists; (split; [reflexivity|]).
    + exact H1.
    + eapply sameRooms_trans; [exact H1|].
      eapply sameRooms_trans;
        [|apply sortRoomsByLastMessage_sameRooms; apply Hwf].
      apply sameRooms_frame; first [reflexivity | intros q; reflexivity].
  - eexists. split; [reflexivity | apply sameRooms_emit].
Qed.

(** X4: in a well-formed state the operations that select, filter,
    describe and sort have no undefined behaviour, keep the roster as it is
    and leave a well-formed state: [highlightSelectedRoom],
    [updateRoomDescription], [applyFilter], [removeFilter],
    [sortRoomsByLastMessage], [leaveEvent] and a timer that fires.
    [updateUnreadMessageCount] does the same unless adding up the total
    overflows, which is its only undefined behaviour there and needs the room
    to exist; it does not overflow when no count of the roster is negative,
    the new count is not negative and the old total and the new count
    together are at most [INT_MAX]. *)
Theorem wellFormed_kept_while_rooms_stay (st : RoomList) :
  wellFormed st ->
  (forall room_id,
     wellFormed (highlightSelectedRoom room_id st) /\
     rooms_ (highlightSelectedRoom room_id st) = rooms_ st) /\
  (forall roomid count,
     match updateUnreadMessageCount roomid count st with
     | Ok st' => wellFormed st' /\ rooms_ st' = rooms_ st
     | Undefined f => f = SignedOverflow /\ roomExists roomid st = true
     end) /\
  (forall roomid count,
     Forall (fun c => 0 <= c) (unreadCounts st) -> 0 <= count ->
     totalUnread st + count <= INT_MAX ->
     exists st', updateUnreadMessageCount roomid count st = Ok st' /\
                 wellFormed st' /\ rooms_ st' = rooms_ st) /\
  (forall underMouse roomid info,
     exists st', updateRoomDescription underMouse roomid info st = Ok st' /\
                 wellFormed st' /\ rooms_ st' = rooms_ st) /\
  (forall filter : gmap QString bool,
     wellFormed (applyFilter filter st) /\
     rooms_ (applyFilter filter st) = rooms_ st) /\
  (wellFormed (removeFilter st) /\ rooms_ (removeFilter st) = rooms_ st) /\
  (wellFormed (sortRoomsByLastMessage st) /\
   rooms_ (sortRoomsByLastMessage st) = rooms_ st) /\
  (wellFormed (leaveEvent st) /\ rooms_ (leaveEvent st) = rooms_ st) /\
  (wellFormed (timeout st) /\ rooms_ (timeout st) = rooms_ st).
Proof.
  intros Hwf.
  assert (Hkeep : forall st', sameRooms st st' ->
                              wellFormed st' /\ rooms_ st' = rooms_ st).
  { intros st' Hs. split; [eapply sameRooms_wellFormed; eassumption | apply Hs]. }
  split; [intros; apply Hkeep, highlightSelectedRoom_sameRooms|].
  split.
  { intros roomid count.
    pose proof (updateUnreadMessageCount_sameRooms st roomid count Hwf) as Hs.
    destruct (updateUnreadMessageCount roomid count st) as [st'|f];
      [now apply Hkeep | exact Hs]. }
  split.
  { intros roomid count Hall Hc Hsum.
    pose proof (updateUnreadMessageCount_sameRooms st roomid count Hwf) as Hs.
    assert (Hok : exists st', updateUnreadMessageCount roomid count st = Ok st').
    { unfold updateUnreadMessageCount.
      destruct (roomExists roomid st) eqn:E; simpl; [|now eexists].
      destruct (wellFormed_find st roomid Hwf E) as [p ->].
      rewrite calculateUnreadMessageCount_total.
      destruct (counts_after_update (widgets st) p count
                  (map_ptrs (rooms_ st))) as [H1 H2];
        [apply Hwf | exact Hc | exact Hall |].
      rewrite runningTotalsFit_nonnegative; [now eexists | lia | exact H1 |].
      unfold totalUnread in Hsum.
      unfold unreadCounts. simpl. lia. }
    destruct Hok as [st' E]. rewrite E in Hs.
    exists st'. split; [exact E | now apply Hkeep]. }
  split.
  { intros underMouse roomid info.
    destruct (updateRoomDescription_sameRooms st underMouse roomid info Hwf)
      as (st' & E & Hs). exists st'. split; [exact E | now apply Hkeep]. }
  split; [intros; apply Hkeep, applyFilter_sameRooms|].
  split; [apply Hkeep, removeFilter_sameRooms|].
  split; [apply Hkeep, sortRoomsByLastMessage_sameRooms, Hwf|].
  split.
  - apply Hkeep. unfold leaveEvent. destruct (isSortPending_ st);
      [|apply sameRooms_refl].
    apply sameRooms_frame; first [reflexivity | intros q; reflexivity].
  - apply Hkeep. unfold timeout.
    eapply sameRooms_trans;
      [|apply sortRoomsByLastMessage_sameRooms; apply Hwf].
    apply sameRooms_frame; first [reflexivity | intros q; reflexivity].
Qed.

Lemma wellFormed_kept_witness :
  wellFormed (applyFilter (<["a" := true]> ∅) sampleRoster) /\
  wellFormed (sortRoomsByLastMessage sampleRoster) /\
  (exists st', updateUnreadMessageCount "b" 5 sampleRoster = Ok st' /\
               wellFormed st' /\ rooms_ st' = rooms_ sampleRoster).
Proof.
  pose proof (wellFormed_kept_while_rooms_stay sampleRoster
                sampleRoster_wellFormed)
    as (_ & _ & Hu & _ & Hf & _ & Hs & _).
  split; [apply Hf|]. split; [apply Hs|].
  apply Hu; [|lia|vm_compute; discriminate].
  repeat constructor; vm_compute; discriminate.
Defined.

(** ** [updateRoom] and [sync] *)

Lemma roomExists_find k st st' :
  map_find k (rooms_ st') = map_find k (rooms_ st) ->
  roomExists k st' = roomExists k st.
Proof. unfold roomExists. now intros ->. Qed.

Lemma updateRoom_upsert cache st room_id info :
  wellFormed st ->
  exists st',
    updateRoom cache room_id info st = Ok st' /\
    wellFormed st' /\
    roomExists room_id st' = true /\
    (forall k, k <> room_id -> roomExists k st' = roomExists k st) /\
    (forall p, map_find room_id (rooms_ st) = Some (Some p) ->
       rooms_ st' = rooms_ st /\
       contentsLayout_ st' = contentsLayout_ st /\
       widgets st' p
       = setRoomType (is_invite info)
           (setRoomName (name info)
              (withAvatar cache (avatar_url info) (widgets st p))) /\
       (forall q, q <> p -> widgets st' q = widgets st q) /\
       selectedRoom_ st' = selectedRoom_ st /\
       trace st' = trace st ++ avatarEvents cache room_id (avatar_url info)).
Proof.
  intros Hwf. unfold updateRoom.
  destruct (roomExists room_id st) eqn:E; simpl.
  - destruct (wellFormed_find st room_id Hwf E) as [p Hp].
    destruct (updateAvatar_present cache room_id (avatar_url info) st p Hp)
      as (st1 & E1 & R & L & S & P & T & Tr & W & Wo).
    rewrite E1, Hp. simpl.
    eexists. split; [reflexivity|]. split; [|split; [|split]].
    + eapply wellFormed_rearranged; [exact Hwf | exact R | |].
      * simpl. now rewrite L.
      * intros k q _. simpl. destruct (Pos.eq_dec q p) as [->|Hne].
        -- rewrite !store_update_same, W. apply roomId_withAvatar.
        -- rewrite !store_update_other by assumption. now rewrite Wo.
    + unfold roomExists in *. simpl. now rewrite R.
    + intros k _. unfold roomExists. simpl. now rewrite R.
    + intros q Hq. injection Hq as <-. simpl.
      rewrite !store_update_same, W.
      repeat split; try assumption.
      intros q Hq. rewrite !store_update_other by assumption. now apply Wo.
  - assert (Hadd : exists add,
              (add = addRoom cache \/ add = addInvitedRoom cache) /\
              (if is_invite info then addInvitedRoom cache room_id info st
               else addRoom cache room_id info st) = add room_id info st).
    { destruct (is_invite info);
        [exists (addInvitedRoom cache); split; [now right | reflexivity]
        |exists (addRoom cache); split; [now left | reflexivity]]. }
    destruct Hadd as (add & Hadd & ->).
    destruct (add_new_room cache add st room_id info Hadd Hwf E)
      as (st' & Eq & Hwf' & Hnew & Hold & _).
    exists st'. split; [exact Eq|]. split; [exact Hwf'|].
    split; [unfold roomExists; now rewrite Hnew|].
    split; [intros k Hk; apply roomExists_find; now apply Hold|].
    intros p Hp. unfold roomExists in E. now rewrite Hp in E.
Qed.

(** X5: [updateRoom] in a well-formed state never has undefined behaviour
    and leaves a well-formed state in which the room exists; the other ids
    are as before.  A room that existed keeps its widget and its place: the
    name and the invite flag of the widget are set and its avatar is looked
    after, so its unread count, last message, pressed mark and visibility
    stay.  With an empty avatar url the avatar stays and nothing is
    signalled; with a url that is not cached the avatar stays and the
    thumbnail is requested; with a cached image the widget gets it and
    [roomAvatarChanged] is emitted. *)
Theorem updateRoom_adds_or_renames
    (cache : QString -> QByteArray)
    (st : RoomList) (room_id : QString) (info : RoomInfo) :
  wellFormed st ->
  exists st',
    updateRoom cache room_id info st = Ok st' /\
    wellFormed st' /\
    roomExists room_id st' = true /\
    (forall k, k <> room_id -> roomExists k st' = roomExists k st) /\
    (forall p, map_find room_id (rooms_ st) = Some (Some p) ->
       rooms_ st' = rooms_ st /\
       contentsLayout_ st' = contentsLayout_ st /\
       roomName_ (widgets st' p) = name info /\
       isInvite (widgets st' p) = is_invite info /\
       unreadMessageCount (widgets st' p) = unreadMessageCount (widgets st p) /\
       lastMessageInfo (widgets st' p) = lastMessageInfo (widgets st p) /\
       isPressed_ (widgets st' p) = isPressed_ (widgets st p) /\
       isVisible (widgets st' p) = isVisible (widgets st p) /\
       (forall q, q <> p -> widgets st' q = widgets st q) /\
       selectedRoom_ st' = selectedRoom_ st /\
       (isEmpty (avatar_url info) = true ->
        avatar_ (widgets st' p) = avatar_ (widgets st p) /\
        trace st' = trace st) /\
       (isEmpty (avatar_url info) = false ->
        isEmpty (cache (avatar_url info)) = true ->
        avatar_ (widgets st' p) = avatar_ (widgets st p) /\
        trace st' = trace st ++ [RequestThumbnail room_id (avatar_url info)]) /\
       (isEmpty (avatar_url info) = false ->
        isEmpty (cache (avatar_url info)) = false ->
        avatar_ (widgets st' p) = cache (avatar_url info) /\
        trace st'
        = trace st ++ [SigRoomAvatarChanged room_id (cache (avatar_url info))])).
Proof.
  intros Hwf.
  destruct (updateRoom_upsert cache st room_id info Hwf)
    as (st' & E & Hwf' & Hex & Hother & Hsame).
  exists st'. split; [exact E|]. split; [exact Hwf'|]. split; [exact Hex|].
  split; [exact Hother|].
  intros p Hp. destruct (Hsame p Hp) as (R & L & W & Wo & S & T).
  rewrite W, T. unfold withAvatar, avatarEvents.
  split; [exact R|]. split; [exact L|]. split; [reflexivity|].
  split; [simpl; now destruct (is_invite info)|].
  destruct (isEmpty (avatar_url info)) eqn:Eu;
    [|destruct (isEmpty (cache (avatar_url info))) eqn:Ec];
    (split; [reflexivity|]); (split; [reflexivity|]);
    (split; [reflexivity|]); (split; [reflexivity|]);
    (split; [exact Wo|]); (split; [exact S|]);
    (split; [|split]); try discriminate; intros; try discriminate;
    rewrite ?app_nil_r; split; reflexivity.
Qed.

Lemma updateRoom_witness :
  exists st',
    updateRoom sampleCache "a"
      (mkRoomInfo "Alpha" "mxc://bees" true noMessage) sampleRoster
    = Ok st' /\
    wellFormed st' /\
    roomExists "a" st' = true /\
    trace st' = [SigRoomAvatarChanged "a" "PNG"].
Proof.
  destruct (updateRoom_adds_or_renames sampleCache sampleRoster "a"
              (mkRoomInfo "Alpha" "mxc://bees" true noMessage)
              sampleRoster_wellFormed) as (st' & E & Hwf & Hex & _ & H).
  exists st'. split; [exact E|]. split; [exact Hwf|]. split; [exact Hex|].
  destruct (H 1%positive eq_refl)
    as (_ & _ & _ & _ & _ & _ & _ & _ & _ & _ & _ & _ & Ha).
  exact (proj2 (Ha eq_refl eq_refl)).
Defined.

(** X6: [sync] in a well-formed state never has undefined behaviour; it
    leaves a well-formed state whose ids are those the roster had and those of
    [info]: no room is dropped and every room of [info] exists. *)
Theorem sync_adds_the_rooms_of_info
    (cache : QString -> QByteArray)
    (info : list (QString * RoomInfo)) (st : RoomList) :
  wellFormed st ->
  exists st',
    sync cache info st = Ok st' /\
    wellFormed st' /\
    (forall k, roomExists k st' = true <->
               roomExists k st = true \/ In k (map fst info)).
Proof.
  unfold sync. revert st. induction info as [|[k0 i0] info IH]; intros st Hwf.
  - exists st. split; [reflexivity|]. split; [exact Hwf|]. simpl. tauto.
  - destruct (updateRoom_upsert cache st k0 i0 Hwf)
      as (st1 & E & Hwf1 & Hex & Hother & _).
    destruct (IH st1 Hwf1) as (st' & E' & Hwf' & Hids).
    exists st'. simpl. rewrite E. simpl. split; [exact E'|].
    split; [exact Hwf'|].
    intros k. rewrite Hids. simpl.
    destruct (String.eqb_spec k k0) as [->|Hne].
    + rewrite Hex. tauto.
    + rewrite (Hother k Hne). split; [tauto|].
      intros [H|[H|H]]; [tauto | congruence | tauto].
Qed.

Lemma sync_witness :
  exists st',
    sync sampleCache
         [("a"%string, mkRoomInfo "Alpha" EmptyString false noMessage);
          ("z"%string, mkRoomInfo "Zed" EmptyString true noMessage)]
         sampleRoster = Ok st' /\
    wellFormed st' /\
    roomExists "z" st' = true.
Proof.
  destruct (sync_adds_the_rooms_of_info sampleCache
              [("a"%string, mkRoomInfo "Alpha" EmptyString false noMessage);
               ("z"%string, mkRoomInfo "Zed" EmptyString true noMessage)]
              sampleRoster sampleRoster_wellFormed) as (st' & E & Hwf & Hids).
  exists st'. split; [exact E|]. split; [exact Hwf|].
  apply Hids. right. simpl. tauto.
Defined.

(** ** [initialize] *)






(** ** Selecting a room *)

(** X8: [highlightSelectedRoom] for a room of a well-formed roster makes it
    the selected room, emits [roomChanged] for it and nothing else, and
    leaves pressed the widget of that room and no other; nothing but the
    pressed marks changes in the widgets. *)
Theorem highlightSelectedRoom_presses_exactly_one
    (st : RoomList) (room_id : QString) :
  wellFormed st ->
  roomExists room_id st = true ->
  let st' := highlightSelectedRoom room_id st in
  selectedRoom_ st' = room_id /\
  trace st' = trace st ++ [SigRoomChanged room_id] /\
  (forall k p, In (k, Some p) (rooms_ st) ->
               (isPressed_ (widgets st' p) = true <-> k = room_id)) /\
  (forall q, exists b, widgets st' q = setPressedState b (widgets st q)) /\
  rooms_ st' = rooms_ st /\
  contentsLayout_ st' = contentsLayout_ st.
Proof.
  intros Hwf Hex. cbv zeta.
  destruct (highlightSelectedRoom_known room_id st Hex)
    as (T & S & R & L & _).
  split; [exact S|]. split; [exact T|].
  split; [|split; [intros q; apply highlightSelectedRoom_widgets|now split]].
  intros k p Hin. unfold highlightSelectedRoom.
  replace (roomExists room_id (emit (SigRoomChanged room_id) st)) with true.
  simpl.
  destruct Hwf as (_ & _ & Hnd & _).
  match goal with |- context [fold_left _ _ ?s] =>
    destruct (highlight_loop_pressed room_id (rooms_ st) s Hnd) as [P1 _] end.
  rewrite (P1 k p Hin). apply String.eqb_eq.
Qed.

Lemma highlightSelectedRoom_witness :
  selectedRoom_ (highlightSelectedRoom "b" sampleRoster) = "b"%string /\
  (isPressed_ (widgets (highlightSelectedRoom "b" sampleRoster) 2%positive) = true
   <-> "b"%string = "b"%string).
Proof.
  pose proof (highlightSelectedRoom_presses_exactly_one sampleRoster "b"
                sampleRoster_wellFormed eq_refl) as (S & _ & P & _).
  split; [exact S|]. apply (P "b"%string 2%positive). simpl. tauto.
Defined.

(** ** The deferred sort and the immediate one *)

(** X9: for a room of the roster, a description that arrives while the
    pointer hovers, followed by the pointer leaving and the timer firing,
    leaves exactly the state that the same description leaves when it
    arrives with the pointer away. *)
Theorem deferred_sort_equals_immediate_sort
    (st : RoomList) (roomid : QString) (info : DescInfo) (p : ptr) :
  map_find roomid (rooms_ st) = Some (Some p) ->
  run [DescriptionUpdate true roomid info; HoverExit; TimerFires] st
  = updateRoomDescription false roomid info st.
Proof.
  intros Hp. unfold run. simpl.
  unfold updateRoomDescription, roomExists. rewrite Hp. simpl.
  reflexivity.
Qed.

Lemma deferred_sort_witness :
  run [DescriptionUpdate true "a" (message 50); HoverExit; TimerFires] sampleRoster
  = updateRoomDescription false "a" (message 50) sampleRoster.
Proof.
  exact (deferred_sort_equals_immediate_sort sampleRoster "a" (message 50)
           1%positive eq_refl).
Defined.

(** ** Where [updateRoomDescription] puts a room *)

Lemma StronglySorted_head_max (key : ptr -> Z) h rest p :
  StronglySorted (fun a b => key b <= key a) (h :: rest) ->
  In p (h :: rest) ->
  (forall q, In q (h :: rest) -> q <> p -> key q < key p) ->
  h = p.
Proof.
  intros Hs Hin Hmax. destruct (Pos.eq_dec h p) as [E|Hne]; [exact E|].
  exfalso. destruct Hin as [E|Hin]; [contradiction|].
  inversion Hs as [|? ? _ Hall]; subst. rewrite List.Forall_forall in Hall.
  specialize (Hall p Hin). simpl in Hall.
  specialize (Hmax h (or_introl eq_refl) Hne). lia.
Qed.

(** X10: a description that arrives with the pointer away, for a room shown
    in a layout without repeated widgets, and whose message is newer than the
    last message of every other room shown, moves that room to the top of
    the layout. *)
Theorem updateRoomDescription_newest_room_on_top
    (st : RoomList) (roomid : QString) (info : DescInfo) (p : ptr) :
  NoDup (layout_ptrs (contentsLayout_ st)) ->
  map_find roomid (rooms_ st) = Some (Some p) ->
  In (RoomWidget p) (contentsLayout_ st) ->
  (forall q, In (RoomWidget q) (contentsLayout_ st) -> q <> p ->
             sortKey (widgets st q)
             < sortKey (setDescriptionMessage info (widgets st p))) ->
  exists st' rest,
    updateRoomDescription false roomid info st = Ok st' /\
    contentsLayout_ st' = RoomWidget p :: rest /\
    lastMessageInfo (widgets st' p) = info /\
    isSortPending_ st' = false.
Proof.
  intros Hnd Hp Hin Hmax.
  unfold updateRoomDescription, roomExists. rewrite Hp. simpl.
  set (st1 := set_isSortPending false
                (on_widget p (setDescriptionMessage info) st)).
  assert (Hnd1 : NoDup (layout_ptrs (contentsLayout_ st1))) by exact Hnd.
  destruct (collectTimes_sorted (widgets st1) (contentsLayout_ st1))
    as (_ & Hperm & Hsorted & _).
  remember (map snd (collectTimes (widgets st1) (contentsLayout_ st1)))
    as sorted eqn:Es.
  assert (Hkey_p : sortKey (widgets st1 p)
                   = sortKey (setDescriptionMessage info (widgets st p))).
  { simpl. now rewrite store_update_same. }
  assert (Hkey_q : forall q, q <> p ->
                     sortKey (widgets st1 q) = sortKey (widgets st q)).
  { intros q Hq. simpl. now rewrite store_update_other. }
  assert (Hp_in : In p sorted).
  { eapply Permutation_in; [symmetry; exact Hperm|].
    now apply layout_ptrs_In. }
  destruct sorted as [|h rest]; [destruct Hp_in|].
  assert (Hh : h = p).
  { apply (StronglySorted_head_max (fun q => sortKey (widgets st1 q)) h rest p);
      [exact Hsorted | exact Hp_in |].
    intros q Hq Hne. rewrite Hkey_p, (Hkey_q q Hne). apply Hmax; [|exact Hne].
    apply layout_ptrs_In. eapply Permutation_in; [exact Hperm | exact Hq]. }
  subst h.
  exists (sortRoomsByLastMessage st1),
         (map RoomWidget rest ++ List.filter isOther (contentsLayout_ st)).
  split; [reflexivity|]. split.
  - rewrite (sortRoomsByLastMessage_layout st1 Hnd1), <- Es. reflexivity.
  - split; [|reflexivity]. simpl. now rewrite store_update_same.
Qed.

Lemma updateRoomDescription_on_top_witness :
  exists st' rest,
    updateRoomDescription false "a" (message 50) sampleRoster = Ok st' /\
    contentsLayout_ st' = RoomWidget 1%positive :: rest /\
    lastMessageInfo (widgets st' 1%positive) = message 50 /\
    isSortPending_ st' = false.
Proof.
  apply (updateRoomDescription_newest_room_on_top sampleRoster "a" (message 50)
           1%positive).
  - apply (bool_decide_unpack _). vm_compute. exact I.
  - reflexivity.
  - simpl. tauto.
  - intros q Hin Hne. simpl in Hin.
    destruct Hin as [[= <-]|[[= <-]|[[= <-]|[[= <-]|[]]]]];
      try contradiction; vm_compute; reflexivity.
Defined.

(** ** Messages dated before the epoch *)

(** X11: the key is the time converted to [uint64_t], so a last message
    dated before the epoch counts as newer than any message dated at or after
    it: after the sort such a room stands before every room whose message is
    not before the epoch and before every room without a message. *)
Theorem sortRoomsByLastMessage_pre_epoch_message_first
    (st : RoomList) (p q : ptr) :
  NoDup (layout_ptrs (contentsLayout_ st)) ->
  In (RoomWidget p) (contentsLayout_ st) ->
  In (RoomWidget q) (contentsLayout_ st) ->
  isEmpty (userid (lastMessageInfo (widgets st p))) = false ->
  - 2 ^ 63 <= datetime (lastMessageInfo (widgets st p)) < 0 ->
  (isEmpty (userid (lastMessageInfo (widgets st q))) = true \/
   0 <= datetime (lastMessageInfo (widgets st q)) < 2 ^ 63) ->
  precedes p q (layout_ptrs (contentsLayout_ (sortRoomsByLastMessage st))).
Proof.
  intros Hnd Hp Hq Hmsg Hneg Hpos.
  rewrite (sortRoomsByLastMessage_layout st Hnd).
  rewrite layout_ptrs_app, layout_ptrs_rooms, layout_ptrs_others, app_nil_r.
  destruct (collectTimes_sorted (widgets st) (contentsLayout_ st))
    as (_ & Hperm & Hsorted & _).
  apply (sorted_precedes (fun r => sortKey (widgets st r))).
  - exact Hsorted.
  - eapply Permutation_in; [symmetry; exact Hperm | now apply layout_ptrs_In].
  - eapply Permutation_in; [symmetry; exact Hperm | now apply layout_ptrs_In].
  - pose proof (sortKey_upper _ Hpos).
    rewrite (sortKey_pre_epoch _ Hmsg Hneg). lia.
Qed.

Lemma pre_epoch_witness :
  precedes 1%positive 2%positive
    (layout_ptrs (contentsLayout_ (sortRoomsByLastMessage preEpochRoster))).
Proof.
  apply sortRoomsByLastMessage_pre_epoch_message_first.
  - apply (bool_decide_unpack _). vm_compute. exact I.
  - simpl. tauto.
  - simpl. tauto.
  - reflexivity.
  - vm_compute. split; [discriminate | reflexivity].
  - right. vm_compute. split; [discriminate | reflexivity].
Defined.

Example pre_epoch_sample :
  contentsLayout_ (sortRoomsByLastMessage preEpochRoster)
  = [RoomWidget 1; RoomWidget 2; RoomWidget 3; RoomWidget 4]%positive.
Proof. reflexivity. Qed.

(** ** Adding a room and removing it again *)

Lemma map_erase_emplace k v m :
  map_find k m = None -> map_erase k (map_emplace k v m) = m.
Proof.
  induction m as [|[k0 v0] m IH]; simpl.
  - intros _. now rewrite String.eqb_refl.
  - destruct (String.eqb_spec k k0) as [->|Hne]; [discriminate|].
    intros Habs. destruct (String.ltb k k0); simpl.
    + now rewrite String.eqb_refl.
    + destruct (String.eqb_spec k k0); [contradiction|]. now rewrite IH.
Qed.

Lemma destroyed_emplace k p m q :
  map_find k m = None -> ~ In p (map_ptrs m) ->
  destroyed (map_emplace k (Some p) m) m q = Pos.eqb q p.
Proof.
  intros Habs Hfresh. unfold destroyed.
  pose proof (map_ptrs_perm _ _ (map_emplace_perm k (Some p) m Habs)) as Hperm.
  simpl in Hperm.
  destruct (Pos.eqb_spec q p) as [->|Hne].
  - replace (owned p (map_emplace k (Some p) m)) with true.
    + destruct (owned p m) eqn:E; [|reflexivity].
      apply owned_map_ptrs in E. contradiction.
    + symmetry. apply owned_map_ptrs.
      eapply Permutation_in; [symmetry; exact Hperm | now left].
  - destruct (owned q m) eqn:E; [apply andb_false_r|].
    rewrite andb_true_r.
    destruct (owned q (map_emplace k (Some p) m)) eqn:E'; [|reflexivity].
    apply owned_map_ptrs in E'. eapply Permutation_in in E'; [|exact Hperm].
    destruct E' as [->|E']; [contradiction|].
    apply owned_map_ptrs in E'. congruence.
Qed.

Lemma filter_all {A} (f : A -> bool) l :
  (forall x, In x l -> f x = true) -> List.filter f l = l.
Proof.
  induction l as [|x l IH]; simpl; intros H; [reflexivity|].
  rewrite (H x) by now left. f_equal. apply IH. intros y Hy. apply H. now right.
Qed.

Lemma dropDestroyed_inserted k p m i l :
  map_find k m = None -> ~ In p (map_ptrs m) -> ~ In p (layout_ptrs l) ->
  dropDestroyed (map_emplace k (Some p) m) m (insertWidget i p l) = l.
Proof.
  intros Habs Hfm Hfl. unfold dropDestroyed.
  assert (Hkeep : List.filter
            (fun item => match item with
                         | RoomWidget r =>
                             negb (destroyed (map_emplace k (Some p) m) m r)
                         | OtherItem => true
                         end) l = l).
  { apply filter_all. intros [r|] Hr; [|reflexivity].
    rewrite destroyed_emplace by assumption.
    apply negb_true_iff, Pos.eqb_neq. intros ->.
    apply Hfl. now apply layout_ptrs_In. }
  assert (Hdrop : forall l1 l2,
            l1 ++ l2 = l ->
            List.filter
              (fun item => match item with
                           | RoomWidget r =>
                               negb (destroyed (map_emplace k (Some p) m) m r)
                           | OtherItem => true
                           end) (l1 ++ RoomWidget p :: l2) = l).
  { intros l1 l2 E. rewrite List.filter_app. simpl.
    rewrite destroyed_emplace by assumption. rewrite Pos.eqb_refl. simpl.
    rewrite <- List.filter_app, E. exact Hkeep. }
  unfold insertWidget. destruct ((i <? 0) || (count l <? i)).
  - apply (Hdrop l []). apply app_nil_r.
  - apply Hdrop. apply take_drop.
Qed.

(** X12: adding a room under a new id with [addRoom] and removing it again
    with [removeRoom] (without reset) gives back the roster and the layout as
    they were; nothing is selected on the way, no widget that was there is
    touched, and the only events are those of the avatar of the new room:
    none for an empty url, the thumbnail request for a url that is not
    cached, [roomAvatarChanged] for a cached image. *)
Theorem addRoom_then_removeRoom_restores
    (cache : QString -> QByteArray)
    (st : RoomList) (room_id : QString) (info : RoomInfo) :
  roomExists room_id st = false ->
  exists st1 st2,
    addRoom cache room_id info st = Ok st1 /\
    roomExists room_id st1 = true /\
    removeRoom room_id false st1 = Ok st2 /\
    rooms_ st2 = rooms_ st /\
    contentsLayout_ st2 = contentsLayout_ st /\
    (forall q, q <> allocate st -> widgets st2 q = widgets st q) /\
    selectedRoom_ st2 = selectedRoom_ st /\
    isSortPending_ st2 = isSortPending_ st /\
    trace st2 = trace st ++ avatarEvents cache room_id (avatar_url info) /\
    (isEmpty (avatar_url info) = true -> trace st2 = trace st) /\
    (isEmpty (avatar_url info) = false ->
     isEmpty (cache (avatar_url info)) = true ->
     trace st2 = trace st ++ [RequestThumbnail room_id (avatar_url info)]) /\
    (isEmpty (avatar_url info) = false ->
     isEmpty (cache (avatar_url info)) = false ->
     trace st2
     = trace st ++ [SigRoomAvatarChanged room_id (cache (avatar_url info))]).
Proof.
  intros Hex.
  assert (Habs : map_find room_id (rooms_ st) = None).
  { unfold roomExists in Hex. now destruct (map_find room_id (rooms_ st)). }
  destruct (allocate_fresh st) as [Hfm Hfl].
  set (p := allocate st) in *.
  set (m' := map_emplace room_id (Some p) (rooms_ st)).
  assert (Hsame : dropDestroyed (rooms_ st) m' (contentsLayout_ st)
                  = contentsLayout_ st).
  { apply dropDestroyed_same. intros q Hq. apply owned_map_ptrs.
    eapply Permutation_in;
      [symmetry; apply map_ptrs_perm, map_emplace_perm, Habs|].
    right. now apply owned_map_ptrs. }
  unfold addRoom, insertNewItem. fold p.
  replace (roomExists room_id
             (on_widget p (setRoomName (name info))
                (set_widget p (newItem room_id info) st))) with false.
  rewrite addRoom_avatar.
  match goal with |- context [updateAvatar cache room_id _ ?s] =>
    destruct (updateAvatar_present cache room_id (avatar_url info) s p)
      as (s2 & E & R & L & S & P & T & Tr & W & Wo)
  end.
  { simpl. fold m'. unfold m'.
    rewrite map_find_emplace by assumption. now rewrite String.eqb_refl. }
  rewrite E. simpl in R, L, S, P, T, Tr, Wo. fold m' in R, L.
  rewrite Hsame in L. simpl.
  eexists. eexists. split; [reflexivity|]. split.
  { unfold roomExists. simpl. rewrite R. unfold m'.
    rewrite map_find_emplace by assumption. now rewrite String.eqb_refl. }
  unfold removeRoom. simpl. rewrite orb_true_r.
  split; [reflexivity|]. simpl. rewrite R, L, S, P, Tr.
  unfold m'. rewrite map_erase_emplace by assumption.
  split; [reflexivity|].
  split; [now apply dropDestroyed_inserted|].
  split.
  { intros q Hq. rewrite Wo by assumption.
    now rewrite !store_update_other. }
  split; [reflexivity|]. split; [reflexivity|]. split; [reflexivity|].
  unfold avatarEvents.
  split; [|split].
  - intros ->. apply app_nil_r.
  - now intros -> ->.
  - now intros -> ->.
Qed.

Lemma addRoom_then_removeRoom_witness :
  exists st1 st2,
    addRoom sampleCache "bb"
      (mkRoomInfo "Bees" "mxc://bees" false noMessage) sampleRoster
    = Ok st1 /\
    removeRoom "bb" false st1 = Ok st2 /\
    rooms_ st2 = rooms_ sampleRoster /\
    contentsLayout_ st2 = contentsLayout_ sampleRoster /\
    trace st2 = [SigRoomAvatarChanged "bb" "PNG"].
Proof.
  destruct (addRoom_then_removeRoom_restores sampleCache sampleRoster "bb"
              (mkRoomInfo "Bees" "mxc://bees" false noMessage) eq_refl)
    as (st1 & st2 & E1 & _ & E2 & R & L & _ & _ & _ & _ & _ & _ & Ha).
  exists st1, st2. split; [exact E1|]. split; [exact E2|].
  split; [exact R|]. split; [exact L|]. exact (Ha eq_refl eq_refl).
Defined.

(** ** Doing it twice, and removing what is not there *)

(** X13: sorting a layout without repeated widgets a second time changes
    nothing: [sortRoomsByLastMessage] after [sortRoomsByLastMessage] leaves
    the state of the first sort. *)
Theorem sortRoomsByLastMessage_twice (st : RoomList) :
  NoDup (layout_ptrs (contentsLayout_ st)) ->
  sortRoomsByLastMessage (sortRoomsByLastMessage st)
  = sortRoomsByLastMessage st.
Proof.
  intros Hnd. pose proof (sortRoomsByLastMessage_settles st Hnd) as Hs.
  unfold settled in Hs.
  unfold sortRoomsByLastMessage at 1. unfold set_layout, set_isSortPending.
  simpl. unfold sortRoomsByLastMessage at 1 in Hs. simpl in Hs.
  rewrite Hs. reflexivity.
Qed.

Lemma sortRoomsByLastMessage_twice_witness :
  sortRoomsByLastMessage (sortRoomsByLastMessage unsortedRoster)
  = sortRoomsByLastMessage unsortedRoster.
Proof.
  apply sortRoomsByLastMessage_twice.
  apply (bool_decide_unpack _). vm_compute. exact I.
Defined.

Lemma filter_twice {A} (f : A -> bool) l :
  List.filter f (List.filter f l) = List.filter f l.
Proof.
  apply filter_all. intros x Hx. now apply filter_In in Hx.
Qed.

(** X14: reconciling the invitations a second time with the same pending ids
    changes nothing more: [cleanupInvites] after [cleanupInvites] leaves the
    state of the first. *)
Theorem cleanupInvites_twice (invites : gmap QString bool) (st : RoomList) :
  cleanupInvites invites (cleanupInvites invites st)
  = cleanupInvites invites st.
Proof.
  unfold cleanupInvites. case_bool_decide as Hs; [reflexivity|].
  unfold set_rooms. simpl. unfold erase_if. rewrite filter_twice.
  f_equal. apply dropDestroyed_same. auto.
Qed.

Lemma map_erase_absent k m : map_find k m = None -> map_erase k m = m.
Proof.
  induction m as [|[k0 v0] m IH]; simpl; [reflexivity|].
  destruct (String.eqb k k0); [discriminate|]. intros H. now rewrite IH.
Qed.

Lemma set_rooms_same st : set_rooms (rooms_ st) st = st.
Proof.
  destruct st as [m l s b w t tr]. unfold set_rooms. simpl.
  f_equal. apply dropDestroyed_same. auto.
Qed.

(** X15: [removeRoom] for an id that is not in the roster removes nothing
    and logs nothing.  Without reset the state is as before; with reset, and
    a roster that is not empty, the first room is pressed and announced all
    the same. *)
Theorem removeRoom_unknown_id
    (st : RoomList) (room_id : QString) :
  roomExists room_id st = false ->
  removeRoom room_id false st = Ok st /\
  (rooms_ st = [] -> removeRoom room_id true st = Ok st) /\
  (forall k p, firstRoom st = Ok (k, Some p) ->
     removeRoom room_id true st
     = Ok (emit (SigRoomChanged k) (on_widget p (setPressedState true) st))).
Proof.
  intros Hex.
  assert (Habs : map_erase room_id (rooms_ st) = rooms_ st).
  { apply map_erase_absent. unfold roomExists in Hex.
    now destruct (map_find room_id (rooms_ st)). }
  unfold removeRoom. rewrite Habs, set_rooms_same.
  split; [now rewrite orb_true_r|]. split.
  - intros ->. reflexivity.
  - intros k p Hfirst. rewrite Hfirst.
    case_bool_decide as He.
    + unfold firstRoom in Hfirst. rewrite He in Hfirst. discriminate.
    + reflexivity.
Qed.

Lemma removeRoom_unknown_id_witness :
  removeRoom "nowhere" false sampleRoster = Ok sampleRoster /\
  removeRoom "nowhere" true sampleRoster
  = Ok (emit (SigRoomChanged "a")
          (on_widget 1%positive (setPressedState true) sampleRoster)).
Proof.
  destruct (removeRoom_unknown_id sampleRoster "nowhere" eq_refl)
    as (H1 & _ & H2).
  split; [exact H1|]. exact (H2 "a"%string 1%positive eq_refl).
Defined.
